(** * Cookie Category Analyzer: the retry client, the reconciliation rules,
      the batch loop and the join back onto the input table (app.py).

    The development follows app.py top-down.  Python values coming back
    from the classification API are modelled by [pyval]; Python exceptions
    by [exn]; the network and the clock by an explicit [world] state that
    records, in order, every HTTP post and every [time.sleep].  Streamlit
    calls (progress bar, status text) have no effect on the data and are
    left out.

    The two columns of the input sheet hold text: cookie names and domain
    categories are strings.  What the API sends back is not constrained:
    any JSON value may stand where the program expects a dict of
    strings.  Error texts are those of CPython 3.12 and pandas 2. *)

From Stdlib Require Import List String Ascii ZArith Lia Bool Arith.
From Stdlib Require Import DecimalString.
From Stdlib Require Import Floats.PrimFloat.
Import ListNotations.
Set Warnings "-register-all".
Local Open Scope string_scope.
Local Open Scope Z_scope.

(** ** Python values *)

(** The values [json.loads] / [response.json()] can produce.  A dict keeps
    its items in insertion order, keys are strings (JSON objects). *)
Inductive pyval : Type :=
| PNone
| PBool (b : bool)
| PInt (z : Z)
| PFloat (f : float)
| PStr (s : string)
| PList (l : list pyval)
| PDict (items : list (string * pyval)).

(** Exceptions that are subclasses of [Exception] but not of
    [requests.exceptions.RequestException]; each carries the text that
    [str(e)] returns. *)
Inductive exn : Type :=
| AttributeError (msg : string)
| KeyError (shown : string)
| IndexError (msg : string)
| TypeError (msg : string)
| ValueError (msg : string).

Definition str_exn (e : exn) : string :=
  match e with
  | AttributeError m | KeyError m | IndexError m | TypeError m
  | ValueError m => m
  end.

(** [type(v).__name__] *)
Definition type_name (v : pyval) : string :=
  match v with
  | PNone => "NoneType"
  | PBool _ => "bool"
  | PInt _ => "int"
  | PFloat _ => "float"
  | PStr _ => "str"
  | PList _ => "list"
  | PDict _ => "dict"
  end.

(** Truth value of an object, as tested by [if x:] and by [and]. *)
Definition truthy (v : pyval) : bool :=
  match v with
  | PNone => false
  | PBool b => b
  | PInt z => negb (z =? 0)
  | PFloat f => negb (PrimFloat.eqb f PrimFloat.zero)
  | PStr s => negb (s =? "")%string
  | PList l => match l with [] => false | _ => true end
  | PDict d => match d with [] => false | _ => true end
  end.

(** [v == s] for a string [s]: a str equals only an equal str. *)
Definition py_eq_str (v : pyval) (s : string) : bool :=
  match v with
  | PStr t => (t =? s)%string
  | _ => false
  end.

Fixpoint dict_lookup (k : string) (d : list (string * pyval)) : option pyval :=
  match d with
  | [] => None
  | (k', v) :: rest => if (k' =? k)%string then Some v else dict_lookup k rest
  end.

(** [sub in s] on strings: substring test. *)
Fixpoint is_substring (sub s : string) : bool :=
  if String.prefix sub s then true
  else match s with
       | EmptyString => false
       | String _ rest => is_substring sub rest
       end.

(** [key in v] for a string [key]. *)
Definition py_contains (v : pyval) (key : string) : exn + bool :=
  match v with
  | PDict d => inr (match dict_lookup key d with Some _ => true | None => false end)
  | PList l => inr (existsb (fun x => py_eq_str x key) l)
  | PStr s => inr (is_substring key s)
  | _ => inl (TypeError ("argument of type '" ++ type_name v ++ "' is not iterable"))
  end.

Definition squote (s : string) : string := "'" ++ s ++ "'".

(** [v[key]] for a string [key]. *)
Definition py_getitem_str (v : pyval) (key : string) : exn + pyval :=
  match v with
  | PDict d => match dict_lookup key d with
               | Some x => inr x
               | None => inl (KeyError (squote key))
               end
  | PList _ => inl (TypeError "list indices must be integers or slices, not str")
  | PStr _ => inl (TypeError "string indices must be integers, not 'str'")
  | _ => inl (TypeError ("'" ++ type_name v ++ "' object is not subscriptable"))
  end.

(** [v[0]] *)
Definition py_getitem_0 (v : pyval) : exn + pyval :=
  match v with
  | PList l => match l with
               | x :: _ => inr x
               | [] => inl (IndexError "list index out of range")
               end
  | PStr s => match s with
              | String c _ => inr (PStr (String c EmptyString))
              | EmptyString => inl (IndexError "string index out of range")
              end
  | PDict _ => inl (KeyError "0")
  | _ => inl (TypeError ("'" ++ type_name v ++ "' object is not subscriptable"))
  end.

(** [v.get(key, default)]; only a dict has the method. *)
Definition py_get (v : pyval) (key : string) (default : pyval) : exn + pyval :=
  match v with
  | PDict d => inr (match dict_lookup key d with Some x => x | None => default end)
  | _ => inl (AttributeError ("'" ++ type_name v ++ "' object has no attribute 'get'"))
  end.

(** [str(z)] for an int. *)
Definition str_int (z : Z) : string := NilZero.string_of_int (Z.to_int z).

(** [json.loads(x)] accepts only text; [loads] is the parser on a str. *)
Definition py_json_loads (loads : string -> exn + pyval) (x : pyval)
  : exn + pyval :=
  match x with
  | PStr s => loads s
  | _ => inl (TypeError ("the JSON object must be str, bytes or bytearray, not "
                           ++ type_name x))
  end.

(** ** The outside world *)

(** What one pass through lines 127-129 ends in: a
    [requests.exceptions.RequestException] (raised by [requests.post], by
    [raise_for_status] or by [response.json]) whose
    [getattr(e.response, "status_code", None)] is [status_code]; the
    decoded body [response_data]; or an exception of another class, which
    the [except] clause of line 133 does not catch. *)
Inductive attempt_outcome : Type :=
| RequestFailed (status_code : option Z)
| Responded (response_data : pyval)
| Raised (e : exn).

(** Observable steps, in the order they happen.  [EvCall] marks the entry
    into [get_cookie_details]. *)
Inductive event : Type :=
| EvCall (cookie_name : string)
| EvPost (cookie_name : string)
| EvSleep (seconds : Z).

Record world : Type := mkWorld {
  posts : nat;          (* HTTP posts issued so far *)
  trace : list event    (* everything that happened, oldest first *)
}.

Definition init_world : world := mkWorld 0 [].

Definition emit (e : event) (w : world) : world :=
  mkWorld (posts w) (trace w ++ [e]).

(** ** Computations: world passing with exceptions *)

Definition M (A : Type) : Type := world -> (exn + A) * world.

Definition ret {A} (a : A) : M A := fun w => (inr a, w).

Definition raise {A} (e : exn) : M A := fun w => (inl e, w).

Definition bind {A B} (m : M A) (k : A -> M B) : M B :=
  fun w => match m w with
           | (inr a, w') => k a w'
           | (inl e, w') => (inl e, w')
           end.

(** [try: m  except Exception as e: h e] *)
Definition try_except {A} (m : M A) (h : exn -> M A) : M A :=
  fun w => match m w with
           | (inr a, w') => (inr a, w')
           | (inl e, w') => h e w'
           end.

Definition lift {A} (r : exn + A) : M A :=
  match r with
  | inr a => ret a
  | inl e => raise e
  end.

Declare Scope py_scope.
Delimit Scope py_scope with py.
Notation "x <- m ;; k" := (bind m (fun x => k))
  (at level 100, m at next level, right associativity) : py_scope.
Notation "m ;;; k" := (bind m (fun _ => k))
  (at level 100, right associativity) : py_scope.

Definition time_sleep (seconds : Z) : M unit :=
  fun w => (inr tt, emit (EvSleep seconds) w).

Definition enter_call (cookie_name : string) : M unit :=
  fun w => (inr tt, emit (EvCall cookie_name) w).

(** Pure counterpart of [bind] on results. *)
Definition bindE {A B} (r : exn + A) (k : A -> exn + B) : exn + B :=
  match r with
  | inr a => k a
  | inl e => inl e
  end.

(** [response_data["candidates"][0]["content"]["parts"][0]["text"]] *)
Definition candidate_text (response_data : pyval) : exn + pyval :=
  bindE (py_getitem_str response_data "candidates") (fun c =>
  bindE (py_getitem_0 c) (fun c0 =>
  bindE (py_getitem_str c0 "content") (fun content =>
  bindE (py_getitem_str content "parts") (fun parts =>
  bindE (py_getitem_0 parts) (fun p0 =>
  py_getitem_str p0 "text"))))).

(** The value tested by
    ["candidates" in response_data and response_data["candidates"]]. *)
Definition candidates_test (response_data : pyval) : exn + pyval :=
  bindE (py_contains response_data "candidates") (fun present =>
  if present then py_getitem_str response_data "candidates"
  else inr (PBool false)).

(** ** Table rows *)

(** One dict appended to [results_list]. *)
Record result_row : Type := mkResult {
  Cookie_Name : string;
  Domain_Category : string;
  Recommended_Category : pyval;
  Justification : pyval
}.

(** One row of [output_df]; [None] is the missing value a left merge
    leaves where no result row matches. *)
Record output_row : Type := mkOutput {
  out_Cookie_Name : string;
  out_Domain_Category : string;
  out_Recommended_Category : option pyval;
  out_Justification : option pyval
}.

(** The sidebar sliders: [MAX_RETRIES] in 5..10, [CHUNK_SIZE_PAUSE] in
    5..100, [PAUSE_DURATION] in 10..60.  The last two are strictly
    positive by the slider bounds, so [%] cannot divide by zero and
    [time.sleep] gets no negative argument. *)
Record controls : Type := mkControls {
  MAX_RETRIES : Z;
  CHUNK_SIZE_PAUSE : positive;
  PAUSE_DURATION : positive
}.

(** ** pandas operations used by the main script *)

Definition table : Type := list (string * string).

Definition name_in (n : string) (seen : list string) : bool :=
  existsb (String.eqb n) seen.

(** [df.drop_duplicates(subset=["Cookie Name"])]: a row stays when no
    earlier row has its cookie name. *)
Fixpoint drop_duplicates_from (seen : list string) (df : table) : table :=
  match df with
  | [] => []
  | (n, d) :: rest =>
      if name_in n seen then drop_duplicates_from seen rest
      else (n, d) :: drop_duplicates_from (n :: seen) rest
  end.

Definition drop_duplicates (df : table) : table := drop_duplicates_from [] df.

Definition result_columns_msg : string :=
  String (ascii_of_nat 34)
    ("None of [Index(['Cookie Name', 'Recommended Category', 'Justification'], dtype='object')] are in the [columns]"
       ++ String (ascii_of_nat 34) "").

(** The columns kept by [result_columns]. *)
Definition result_cols (r : result_row) : string * (pyval * pyval) :=
  (Cookie_Name r, (Recommended_Category r, Justification r)).

(** [pd.DataFrame(results_list)[result_columns]]: a frame built from an
    empty list has no columns, so selecting them raises [KeyError]. *)
Definition select_result_columns (results : list result_row)
  : exn + list (string * (pyval * pyval)) :=
  match results with
  | [] => inl (KeyError result_columns_msg)
  | _ => inr (map result_cols results)
  end.

Definition matching (n : string) (right : list (string * (pyval * pyval)))
  : list (string * (pyval * pyval)) :=
  filter (fun r => (fst r =? n)%string) right.

(** Rows a left row contributes to [pd.merge(..., how="left")]: one per
    matching right row, or one with missing values when none matches. *)
Definition merge_row (right : list (string * (pyval * pyval)))
           (row : string * string) : list output_row :=
  match matching (fst row) right with
  | [] => [mkOutput (fst row) (snd row) None None]
  | ms => map (fun m => mkOutput (fst row) (snd row)
                                 (Some (fst (snd m))) (Some (snd (snd m)))) ms
  end.

Definition merge_left (left : table) (right : list (string * (pyval * pyval)))
  : list output_row :=
  flat_map (merge_row right) left.

(** ** The duplicate report and the API key of the main script *)

Definition count_name (n : string) (df : table) : nat :=
  List.length (filter (fun r => (fst r =? n)%string) df).

(** [df.duplicated(subset="Cookie Name", keep=False)]: the mask is true
    on every row whose cookie name occurs more than once. *)
Definition duplicated_keep_false (df : table) : list bool :=
  map (fun r => (1 <? count_name (fst r) df)%nat) df.

(** [df[mask]]: the rows where the mask is true. *)
Definition select_mask {A : Type} (mask : list bool) (rows : list A) : list A :=
  map snd (filter fst (combine mask rows)).

(** Lines 215-216, before [sort_values]: sorting permutes the rows and
    changes neither [.empty] nor [len]. *)
Definition duplicate_cookies (input_df : table) : table :=
  select_mask (duplicated_keep_false input_df) input_df.

(** Lines 80-84: the value of [st.secrets["GEMINI_API_KEY"]] when the
    lookup succeeds ([Some]), the literal of line 84 when it raises
    ([None]); the bare [except] catches whatever is raised.  The literal
    is kept out of this file and passed as [literal_key]. *)
Definition FALLBACK_API_KEY (literal_key : string) (secret : option pyval)
  : pyval :=
  match secret with
  | Some v => v
  | None => PStr literal_key
  end.

(** Lines 87-92: the key typed in the sidebar wins when it is not empty. *)
Definition GEMINI_API_KEY (literal_key : string) (secret : option pyval)
           (GEMINI_API_KEY_USER : string) : pyval :=
  if truthy (PStr GEMINI_API_KEY_USER) then PStr GEMINI_API_KEY_USER
  else FALLBACK_API_KEY literal_key secret.

(** Line 205: [if not GEMINI_API_KEY] stops the run before any file is
    read. *)
Definition key_missing (literal_key : string) (secret : option pyval)
           (GEMINI_API_KEY_USER : string) : bool :=
  negb (truthy (GEMINI_API_KEY literal_key secret GEMINI_API_KEY_USER)).


(** ** Sample environments, used to instantiate the statements below *)

(** A stand-in for the parser: it knows the empty object and rejects
    every other text. *)
Definition loads_sample (s : string) : exn + pyval :=
  if (s =? "{}")%string then inr (PDict [])
  else inl (ValueError "Expecting value: line 1 column 1 (char 0)").

(** A stand-in for [str()] on floats, lists and dicts. *)
Definition str_sample (v : pyval) : string := type_name v.

Definition net_failing (status_code : option Z) : nat -> string -> attempt_outcome :=
  fun _ _ => RequestFailed status_code.

Definition net_replying (response_data : pyval) : nat -> string -> attempt_outcome :=
  fun _ _ => Responded response_data.

Definition sliders_default : controls := mkControls 5 5 10.

(** A network that answers the posts of the run from a script, and fails
    without a response once the script is used up. *)
Definition net_script (script : list attempt_outcome)
  : nat -> string -> attempt_outcome :=
  fun k _ => nth k script (RequestFailed None).

(** A body with one candidate whose payload text is [text]. *)
Definition body_of_text (text : string) : pyval :=
  PDict [("candidates",
          PList [PDict [("content",
                         PDict [("parts",
                                 PList [PDict [("text", PStr text)]])])]])].

(** A body whose only candidate was cut off and has no content. *)
Definition body_without_content : pyval :=
  PDict [("candidates", PList [PDict [("finishReason", PStr "SAFETY")]])].

Definition result_targeting : pyval :=
  PDict [("cookieName", PStr "sid");
         ("recommendedCategory", PStr "Targeting");
         ("justification", PStr "Tracks visitors.")].

(** A stand-in for the parser that knows three JSON texts. *)
Definition loads_small (s : string) : exn + pyval :=
  if (s =? "{}")%string then inr (PDict [])
  else if (s =? "[1]")%string then inr (PList [PInt 1])
  else if (s =? "0")%string then inr (PInt 0)
  else inl (ValueError "Expecting value: line 1 column 1 (char 0)").

Definition six_cookies : table :=
  [("a", "Essential"); ("b", "Unknown"); ("c", "Targeting");
   ("d", "Essential"); ("e", "Performance"); ("f", "Unknown")].

(** The table produced by a run, or the empty table when the run raised. *)
Definition table_of {A : Type} (r : (exn + list A) * world) : list A :=
  match fst r with
  | inr rows => rows
  | inl _ => []
  end.


(** ** The program *)

Section Analyzer.

(** [json.loads] on text, and [str()] on floats, lists and dicts, are
    CPython's; the network decides what the n-th post of the run, sent
    for a given cookie name, ends in. *)
Variable json_loads : string -> exn + pyval.
Variable str_other : pyval -> string.
Variable net : nat -> string -> attempt_outcome.

Local Open Scope py_scope.

(** [str(v)], as used by the f-strings. *)
Definition py_str (v : pyval) : string :=
  match v with
  | PStr s => s
  | PNone => "None"
  | PBool true => "True"
  | PBool false => "False"
  | PInt z => str_int z
  | _ => str_other v
  end.

(** Lines 127-129: post, [raise_for_status], [response.json()]. *)
Definition requests_post (cookie_name : string) : M attempt_outcome :=
  fun w => (inr (net (posts w) cookie_name),
            mkWorld (S (posts w)) (trace w ++ [EvPost cookie_name])).

Definition is_429 (status_code : option Z) : bool :=
  match status_code with
  | Some c => c =? 429
  | None => false
  end.

(** The body of [for attempt in range(retries)]; [Some v] is
    [return v] from inside the loop, [None] is falling out of it. *)
Fixpoint retry_loop (cookie_name : string) (attempts : list nat)
  : M (option pyval) :=
  match attempts with
  | [] => ret None
  | attempt :: rest =>
      outcome <- requests_post cookie_name ;;
      match outcome with
      | Responded response_data =>
          c <- lift (candidates_test response_data) ;;
          if truthy c then
            text <- lift (candidate_text response_data) ;;
            v <- lift (py_json_loads json_loads text) ;;
            ret (Some v)
          else ret (Some PNone)
      | RequestFailed status_code =>
          if is_429 status_code then
            time_sleep 60 ;;; retry_loop cookie_name rest
          else
            time_sleep (2 ^ Z.of_nat attempt) ;;; retry_loop cookie_name rest
      | Raised e => raise e
      end
  end.

Definition error_result (cookie_name : string) (retries : Z) : pyval :=
  PDict [("cookieName", PStr cookie_name);
         ("recommendedCategory", PStr "Error");
         ("justification",
          PStr ("API call failed after " ++ str_int retries ++ " attempts."))].

Definition get_cookie_details (cookie_name : string) (retries : Z) : M pyval :=
  enter_call cookie_name ;;;
  r <- retry_loop cookie_name (seq 0 (Z.to_nat retries)) ;;
  match r with
  | Some v => ret v
  | None => ret (error_result cookie_name retries)
  end.

(** Lines 164-175: the final category and justification. *)
Definition merge_categories (gemini_category gemini_justification : pyval)
           (domain_category : string) : pyval * pyval :=
  if py_eq_str gemini_category domain_category then
    if py_eq_str gemini_category "Unknown" then
      (gemini_category, PStr "Need confirmation from Client")
    else (gemini_category, PStr "N/A")
  else
    if py_eq_str gemini_category "Unknown" then
      (PStr domain_category, PStr "N/A")
    else if negb (domain_category =? "Unknown")%string then
      (PStr (domain_category ++ "/" ++ py_str gemini_category),
       PStr ("Depending on the website's use case it can be classified as "
               ++ domain_category ++ "/" ++ py_str gemini_category ++ ". "
               ++ py_str gemini_justification))
    else (gemini_category, gemini_justification).

(** Lines 158-183: the rows appended for one answer of the client. *)
Definition reconcile (cookie_name domain_category : string)
           (api_details : pyval) : exn + list result_row :=
  if truthy api_details then
    bindE (py_get api_details "recommendedCategory" (PStr "Unknown"))
      (fun gemini_category =>
    bindE (py_get api_details "justification" (PStr ""))
      (fun gemini_justification =>
    let final := merge_categories gemini_category gemini_justification
                                  domain_category in
    inr [mkResult cookie_name domain_category (fst final) (snd final)]))
  else inr [].

Definition processing_error (cookie_name domain_category : string) (e : exn)
  : result_row :=
  mkResult cookie_name domain_category (PStr "Processing Error")
           (PStr (str_exn e)).

Variable sliders : controls.

(** Lines 155-183: what stands under [try]. *)
Definition try_body (cookie_name domain_category : string)
  : M (list result_row) :=
  time_sleep 1 ;;;
  api_details <- get_cookie_details cookie_name (MAX_RETRIES sliders) ;;
  lift (reconcile cookie_name domain_category api_details).

(** Lines 154-190: the [try]/[except] of one record; the value is what
    the pass appends to [results_list]. *)
Definition process_record (cookie_name domain_category : string)
  : M (list result_row) :=
  try_except
    (try_body cookie_name domain_category)
    (fun e => ret [processing_error cookie_name domain_category e]).

(** Lines 194-196. *)
Definition chunk_pause (index total_cookies : nat) : M unit :=
  if ((Z.of_nat index + 1) mod Z.pos (CHUNK_SIZE_PAUSE sliders) =? 0)
     && (Z.of_nat index + 1 <? Z.of_nat total_cookies)
  then time_sleep (Z.pos (PAUSE_DURATION sliders))
  else ret tt.

Fixpoint process_loop (total_cookies index : nat) (cookie_records : table)
  : M (list result_row) :=
  match cookie_records with
  | [] => ret []
  | (cookie_name, domain_category) :: rest =>
      rows <- process_record cookie_name domain_category ;;
      chunk_pause index total_cookies ;;;
      more <- process_loop total_cookies (S index) rest ;;
      ret (rows ++ more)%list
  end.

Definition process_dataframe (df : table) : M (list result_row) :=
  process_loop (List.length df) 0 df.

(** Lines 229-247: deduplicate, analyse, join back. *)
Definition analyse (input_df : table) : M (list output_row) :=
  let unique_cookies_df := drop_duplicates input_df in
  analysis_results_df <- process_dataframe unique_cookies_df ;;
  right <- lift (select_result_columns analysis_results_df) ;;
  ret (merge_left input_df right).

(** *** Vocabulary of the statements *)

Definition is_failure (o : attempt_outcome) : bool :=
  match o with
  | RequestFailed _ => true
  | Responded _ | Raised _ => false
  end.

Definition status_of (o : attempt_outcome) : option Z :=
  match o with
  | RequestFailed status_code => status_code
  | Responded _ | Raised _ => None
  end.

(** The pause the text prescribes after a failed attempt: 60 seconds on
    HTTP 429, otherwise two to the power of the attempt number. *)
Definition sleep_after_failure (attempt : nat) (status_code : option Z) : Z :=
  match status_code with
  | Some 429 => 60
  | _ => 2 ^ Z.of_nat attempt
  end.

(** Post and pause of consecutive failed attempts, the first of them
    being post number [k] of the run. *)
Fixpoint failed_trace (cookie_name : string) (attempts : list nat) (k : nat)
  : list event :=
  match attempts with
  | [] => []
  | attempt :: rest =>
      EvPost cookie_name
        :: EvSleep (sleep_after_failure attempt (status_of (net k cookie_name)))
        :: failed_trace cookie_name rest (S k)
  end.

(** The first [n] posts counted from [w] for [cookie_name] all fail. *)
Definition fails_next (cookie_name : string) (w : world) (n : nat) : Prop :=
  forall i, (i < n)%nat -> is_failure (net (posts w + i) cookie_name) = true.

(** A decoded body without candidates: the key is absent or its value
    is empty. *)
Definition no_candidates (response_data : pyval) : Prop :=
  exists items, response_data = PDict items /\
    forall c, dict_lookup "candidates" items = Some c -> truthy c = false.

Definition calls_of (tr : list event) : list string :=
  flat_map (fun e => match e with EvCall n => [n] | _ => [] end) tr.

(** What lines 130-132 make of a decoded body. *)
Definition answer_of (response_data : pyval) : exn + option pyval :=
  bindE (candidates_test response_data) (fun c =>
  if truthy c then
    bindE (candidate_text response_data) (fun text =>
    bindE (py_json_loads json_loads text) (fun v => inr (Some v)))
  else inr (Some PNone)).

(** The batch loop with the exception channel removed: the rows one
    record appends, and the rows of a whole run of records. *)
Definition record_rows (cookie_name domain_category : string) (w : world)
  : list result_row * world :=
  match try_body cookie_name domain_category w with
  | (inr rows, w') => (rows, w')
  | (inl e, w') => ([processing_error cookie_name domain_category e], w')
  end.

Fixpoint loop_rows (total_cookies index : nat) (cookie_records : table)
         (w : world) : list result_row * world :=
  match cookie_records with
  | [] => ([], w)
  | (cookie_name, domain_category) :: rest =>
      let (rows, w1) := record_rows cookie_name domain_category w in
      let w2 := snd (chunk_pause index total_cookies w1) in
      let (more, w3) := loop_rows total_cookies (S index) rest w2 in
      ((rows ++ more)%list, w3)
  end.

Definition named (n : string) (r : result_row) : bool :=
  (Cookie_Name r =? n)%string.

(** The first row of a table with a given cookie name. *)
Definition first_row (n : string) (df : table) : option (string * string) :=
  find (fun r => (fst r =? n)%string) df.

(** The classification fields a left merge gives a row named [n]. *)
Definition joined_fields (right : list (string * (pyval * pyval)))
           (n : string) : option pyval * option pyval :=
  match matching n right with
  | [] => (None, None)
  | m :: _ => (Some (fst (snd m)), Some (snd (snd m)))
  end.

Definition join_row (right : list (string * (pyval * pyval)))
           (row : string * string) : output_row :=
  mkOutput (fst row) (snd row)
           (fst (joined_fields right (fst row)))
           (snd (joined_fields right (fst row))).

(** The rows and the world the batch ends with on the deduplicated
    input. *)
Definition unique_rows (input_df : table) (w : world)
  : list result_row * world :=
  loop_rows (List.length (drop_duplicates input_df)) 0
            (drop_duplicates input_df) w.

(** Output rows of a given cookie name. *)
Definition out_named (n : string) (o : output_row) : bool :=
  (out_Cookie_Name o =? n)%string.

(** *** Vocabulary of the further statements *)

(** Seconds slept along a trace. *)
Definition total_sleep (tr : list event) : Z :=
  fold_right (fun e acc => match e with EvSleep s => s + acc | _ => acc end)
             0 tr.

(** Lines 130-132 as a value or an exception: what the call returns or
    raises on a decoded body. *)
Definition payload_of (response_data : pyval) : exn + pyval :=
  bindE (candidates_test response_data) (fun c =>
  if truthy c then
    bindE (candidate_text response_data) (py_json_loads json_loads)
  else inr PNone).

(** [l1] is [l2] with some elements left out, order kept. *)
Inductive subseq {A : Type} : list A -> list A -> Prop :=
| subseq_nil : subseq [] []
| subseq_skip x l1 l2 : subseq l1 l2 -> subseq l1 (x :: l2)
| subseq_keep x l1 l2 : subseq l1 l2 -> subseq (x :: l1) (x :: l2).

(** The input columns of a result row and of an output row. *)
Definition result_key (r : result_row) : string * string :=
  (Cookie_Name r, Domain_Category r).

Definition output_key (o : output_row) : string * string :=
  (out_Cookie_Name o, out_Domain_Category o).

(** No post of the run ends in a request exception. *)
Definition never_fails : Prop :=
  forall k n, is_failure (net k n) = false.


(** Does a text contain the character [/]? *)
Fixpoint has_slash (s : string) : bool :=
  match s with
  | EmptyString => false
  | String c rest => (c =? "/")%char || has_slash rest
  end.


(** The cookie names of a column, each at its first occurrence. *)
Fixpoint first_occurrences (names : list string) : list string :=
  match names with
  | [] => []
  | n :: rest =>
      n :: filter (fun m => negb (m =? n)%string) (first_occurrences rest)
  end.

(** Both classification fields of a result row are text. *)
Definition text_fields (r : result_row) : Prop :=
  exists c j, Recommended_Category r = PStr c /\ Justification r = PStr j.

(** *** The retry loop *)

Lemma sleep_after_failure_code (attempt : nat) (status_code : option Z) :
  (if is_429 status_code then 60 else 2 ^ Z.of_nat attempt)
  = sleep_after_failure attempt status_code.
Proof.
  unfold sleep_after_failure, is_429.
  destruct status_code as [c|]; [|reflexivity].
  destruct c as [|p|p]; try reflexivity.
  repeat (match goal with
          | q : positive |- _ => destruct q; try reflexivity
          end).
Qed.

Lemma retry_loop_failed_step cookie_name attempt rest w status_code :
  net (posts w) cookie_name = RequestFailed status_code ->
  retry_loop cookie_name (attempt :: rest) w
  = retry_loop cookie_name rest
      (mkWorld (S (posts w))
               (trace w ++ [EvPost cookie_name;
                            EvSleep (sleep_after_failure attempt status_code)])).
Proof.
  intros Hnet.
  cbn [retry_loop]. unfold bind at 1. unfold requests_post.
  rewrite Hnet. rewrite <- sleep_after_failure_code.
  destruct (is_429 status_code); unfold bind, time_sleep, emit; cbn;
    rewrite <- app_assoc; reflexivity.
Qed.

Lemma retry_loop_failed_prefix cookie_name failing rest :
  forall w,
    fails_next cookie_name w (List.length failing) ->
    retry_loop cookie_name (failing ++ rest) w
    = retry_loop cookie_name rest
        (mkWorld (posts w + List.length failing)
                 (trace w ++ failed_trace cookie_name failing (posts w))).
Proof.
  induction failing as [|attempt failing IH]; intros w Hfail.
  - cbn. rewrite Nat.add_0_r, app_nil_r. destruct w; reflexivity.
  - assert (H0 : is_failure (net (posts w) cookie_name) = true).
    { specialize (Hfail 0%nat). rewrite Nat.add_0_r in Hfail.
      apply Hfail. cbn. lia. }
    destruct (net (posts w) cookie_name) as [status_code| |] eqn:Hnet;
      [|discriminate|discriminate].
    cbn [app]. rewrite (retry_loop_failed_step _ _ _ _ _ Hnet).
    rewrite IH.
    + cbn [posts trace failed_trace List.length]. rewrite Hnet. cbn [status_of].
      rewrite <- app_assoc. cbn [app].
      replace (S (posts w) + List.length failing)%nat
        with (posts w + S (List.length failing))%nat by lia.
      reflexivity.
    + intros i Hi. cbn [posts].
      replace (S (posts w) + i)%nat with (posts w + S i)%nat by lia.
      apply Hfail. cbn. lia.
Qed.

Lemma failed_trace_app cookie_name l1 l2 k :
  failed_trace cookie_name (l1 ++ l2) k
  = (failed_trace cookie_name l1 k
       ++ failed_trace cookie_name l2 (k + List.length l1))%list.
Proof.
  revert k. induction l1 as [|a l1 IH]; intros k; cbn.
  - rewrite Nat.add_0_r. reflexivity.
  - rewrite IH.
    replace (S k + List.length l1)%nat with (k + S (List.length l1))%nat by lia.
    reflexivity.
Qed.

Lemma seq_split (n m : nat) :
  (n <= m)%nat -> seq 0 m = (seq 0 n ++ seq n (m - n))%list.
Proof.
  intros H. replace m with (n + (m - n))%nat at 1 by lia.
  rewrite seq_app. reflexivity.
Qed.

Lemma retry_loop_responded_step cookie_name attempt rest w response_data :
  net (posts w) cookie_name = Responded response_data ->
  retry_loop cookie_name (attempt :: rest) w
  = (answer_of response_data,
     mkWorld (S (posts w)) (trace w ++ [EvPost cookie_name])).
Proof.
  intros Hnet.
  cbn [retry_loop]. unfold bind at 1. unfold requests_post.
  rewrite Hnet. unfold answer_of, bind, lift, ret, raise, bindE.
  destruct (candidates_test response_data) as [e|c]; [reflexivity|].
  destruct (truthy c); [|reflexivity].
  destruct (candidate_text response_data) as [e|text]; [reflexivity|].
  destruct (py_json_loads json_loads text); reflexivity.
Qed.

Lemma retry_loop_raised_step cookie_name attempt rest w e :
  net (posts w) cookie_name = Raised e ->
  retry_loop cookie_name (attempt :: rest) w
  = (inl e, mkWorld (S (posts w)) (trace w ++ [EvPost cookie_name])).
Proof.
  intros Hnet.
  cbn [retry_loop]. unfold bind at 1. unfold requests_post.
  rewrite Hnet. reflexivity.
Qed.

Lemma retry_loop_trace_extends cookie_name attempts :
  forall w, exists tail,
    trace (snd (retry_loop cookie_name attempts w)) = (trace w ++ tail)%list.
Proof.
  induction attempts as [|attempt rest IH]; intros w.
  - exists []. cbn. rewrite app_nil_r. reflexivity.
  - destruct (net (posts w) cookie_name) as [status_code|response_data|e] eqn:Hnet.
    + rewrite (retry_loop_failed_step _ _ _ _ _ Hnet).
      destruct (IH (mkWorld (S (posts w))
                  (trace w ++ [EvPost cookie_name;
                     EvSleep (sleep_after_failure attempt status_code)])))
        as [tail Htail].
      rewrite Htail. cbn [trace]. rewrite <- app_assoc. eauto.
    + rewrite (retry_loop_responded_step _ _ _ _ _ Hnet). cbn. eauto.
    + rewrite (retry_loop_raised_step _ _ _ _ _ Hnet). cbn. eauto.
Qed.

Lemma retry_loop_starts_with_post cookie_name attempt rest w :
  exists tail,
    trace (snd (retry_loop cookie_name (attempt :: rest) w))
    = (trace w ++ EvPost cookie_name :: tail)%list.
Proof.
  destruct (net (posts w) cookie_name) as [status_code|response_data|e] eqn:Hnet.
  - rewrite (retry_loop_failed_step _ _ _ _ _ Hnet).
    destruct (retry_loop_trace_extends cookie_name rest
                (mkWorld (S (posts w))
                  (trace w ++ [EvPost cookie_name;
                     EvSleep (sleep_after_failure attempt status_code)])))
      as [tail Htail].
    rewrite Htail. cbn [trace]. rewrite <- app_assoc. cbn [app]. eauto.
  - rewrite (retry_loop_responded_step _ _ _ _ _ Hnet). cbn. eauto.
  - rewrite (retry_loop_raised_step _ _ _ _ _ Hnet). cbn. eauto.
Qed.

Lemma retry_loop_posts_bound cookie_name attempts :
  forall w,
    (posts w <= posts (snd (retry_loop cookie_name attempts w))
     <= posts w + List.length attempts)%nat.
Proof.
  induction attempts as [|attempt rest IH]; intros w.
  - cbn. lia.
  - destruct (net (posts w) cookie_name) as [status_code|response_data|e] eqn:Hnet.
    + rewrite (retry_loop_failed_step _ _ _ _ _ Hnet).
      match goal with |- context [retry_loop _ _ ?w1] => specialize (IH w1) end.
      cbn [posts List.length] in *. lia.
    + rewrite (retry_loop_responded_step _ _ _ _ _ Hnet). cbn. lia.
    + rewrite (retry_loop_raised_step _ _ _ _ _ Hnet). cbn. lia.
Qed.

Lemma get_cookie_details_unfold cookie_name retries w :
  get_cookie_details cookie_name retries w
  = match retry_loop cookie_name (seq 0 (Z.to_nat retries))
            (emit (EvCall cookie_name) w) with
    | (inr (Some v), w') => (inr v, w')
    | (inr None, w') => (inr (error_result cookie_name retries), w')
    | (inl e, w') => (inl e, w')
    end.
Proof.
  unfold get_cookie_details, bind, enter_call, ret.
  destruct (retry_loop _ _ _) as [[e|[v|]] w']; reflexivity.
Qed.

(** After [n] failed attempts the call stands at attempt [n]. *)
Lemma get_cookie_details_failed_prefix cookie_name retries w n :
  (n <= Z.to_nat retries)%nat ->
  fails_next cookie_name w n ->
  retry_loop cookie_name (seq 0 (Z.to_nat retries))
             (emit (EvCall cookie_name) w)
  = retry_loop cookie_name (seq n (Z.to_nat retries - n))
      (mkWorld (posts w + n)
         (trace w ++ EvCall cookie_name
            :: failed_trace cookie_name (seq 0 n) (posts w))).
Proof.
  intros Hn Hfail.
  rewrite (seq_split n (Z.to_nat retries) Hn).
  rewrite retry_loop_failed_prefix.
  - rewrite length_seq. unfold emit. cbn [posts trace].
    rewrite <- app_assoc. reflexivity.
  - rewrite length_seq. exact Hfail.
Qed.

(** C3: when all [retries] attempts end in a request exception, the
    client returns (it does not raise) the result whose
    [recommendedCategory] is "Error" and whose justification says that
    the API call failed after [retries] attempts; exactly [retries]
    posts were made. *)
Theorem get_cookie_details_exhausted cookie_name retries w :
  fails_next cookie_name w (Z.to_nat retries) ->
  get_cookie_details cookie_name retries w
  = (inr (PDict [("cookieName", PStr cookie_name);
                 ("recommendedCategory", PStr "Error");
                 ("justification",
                  PStr ("API call failed after " ++ str_int retries
                          ++ " attempts."))]),
     mkWorld (posts w + Z.to_nat retries)
       (trace w ++ EvCall cookie_name
          :: failed_trace cookie_name (seq 0 (Z.to_nat retries)) (posts w))).
Proof.
  intros Hfail.
  rewrite get_cookie_details_unfold.
  rewrite (get_cookie_details_failed_prefix _ _ _ (Z.to_nat retries));
    [|lia|exact Hfail].
  rewrite Nat.sub_diag. reflexivity.
Qed.

(** C4: a failed attempt number [a] (the attempts before it having
    failed too) is followed by a pause of 60 seconds when the failure
    carries status 429 and of [2^a] seconds otherwise; the next attempt,
    if one is left, starts right after that pause, and after the last
    attempt nothing more is posted: a 429 uses up its attempt like any
    other failure, and the call never posts more than [retries] times. *)
Theorem get_cookie_details_backoff cookie_name retries w a status_code :
  (a < Z.to_nat retries)%nat ->
  fails_next cookie_name w a ->
  net (posts w + a) cookie_name = RequestFailed status_code ->
  let pause := match status_code with
               | Some 429 => 60
               | _ => 2 ^ Z.of_nat a
               end in
  let w' := snd (get_cookie_details cookie_name retries w) in
  exists tail,
    trace w'
    = (trace w ++ EvCall cookie_name
         :: failed_trace cookie_name (seq 0 a) (posts w)
         ++ EvPost cookie_name :: EvSleep pause :: tail)%list
    /\ ((S a < Z.to_nat retries)%nat ->
        exists tail', tail = EvPost cookie_name :: tail')
    /\ (S a = Z.to_nat retries -> tail = [])
    /\ (posts w + S a <= posts w' <= posts w + Z.to_nat retries)%nat.
Proof.
  intros Ha Hfail Hnet pause w'.
  assert (Hw' : w' = snd (retry_loop cookie_name
                            (seq (S a) (Z.to_nat retries - S a))
                            (mkWorld (S (posts w + a))
                               ((trace w ++ EvCall cookie_name
                                   :: failed_trace cookie_name (seq 0 a) (posts w))
                                  ++ [EvPost cookie_name; EvSleep pause])))).
  { subst w'. rewrite get_cookie_details_unfold.
    rewrite (get_cookie_details_failed_prefix _ _ _ a); [|lia|exact Hfail].
    replace (Z.to_nat retries - a)%nat
      with (S (Z.to_nat retries - S a)) by lia.
    cbn [seq].
    rewrite (retry_loop_failed_step _ _ _ _ status_code); [|exact Hnet].
    cbn [posts trace].
    destruct (retry_loop _ _ _) as [[e|[v|]] w2]; reflexivity. }
  clearbody w'. subst w'.
  set (w1 := mkWorld _ _).
  assert (Hbound := retry_loop_posts_bound cookie_name
                      (seq (S a) (Z.to_nat retries - S a)) w1).
  rewrite length_seq in Hbound. cbn [posts w1] in Hbound.
  destruct (seq (S a) (Z.to_nat retries - S a)) as [|next more] eqn:Hseq.
  - exists []. cbn [retry_loop ret snd trace w1].
    rewrite <- app_assoc. cbn [app].
    assert (Hlen : List.length (seq (S a) (Z.to_nat retries - S a)) = 0%nat)
      by (rewrite Hseq; reflexivity).
    rewrite length_seq in Hlen.
    repeat split.
    + intros Hlt. lia.
    + cbn [retry_loop ret snd] in Hbound. lia.
    + cbn [retry_loop ret snd] in Hbound. lia.
  - destruct (retry_loop_starts_with_post cookie_name next more w1)
      as [tail Htail].
    exists (EvPost cookie_name :: tail).
    rewrite Htail. cbn [trace w1]. rewrite <- !app_assoc. cbn [app].
    assert (Hlen : List.length (seq (S a) (Z.to_nat retries - S a))
                   = S (List.length more))
      by (rewrite Hseq; reflexivity).
    rewrite length_seq in Hlen.
    repeat split.
    + eauto.
    + intros Heq. lia.
    + lia.
    + lia.
Qed.

(** *** One record, and the loop over the records *)

Lemma calls_of_app (t1 t2 : list event) :
  calls_of (t1 ++ t2) = (calls_of t1 ++ calls_of t2)%list.
Proof. apply flat_map_app. Qed.

Lemma retry_loop_calls cookie_name attempts :
  forall w,
    calls_of (trace (snd (retry_loop cookie_name attempts w)))
    = calls_of (trace w).
Proof.
  induction attempts as [|attempt rest IH]; intros w; [reflexivity|].
  destruct (net (posts w) cookie_name) as [status_code|response_data|e] eqn:Hnet.
  - rewrite (retry_loop_failed_step _ _ _ _ _ Hnet), IH.
    cbn [trace]. rewrite calls_of_app. cbn. apply app_nil_r.
  - rewrite (retry_loop_responded_step _ _ _ _ _ Hnet).
    cbn [snd trace]. rewrite calls_of_app. cbn. apply app_nil_r.
  - rewrite (retry_loop_raised_step _ _ _ _ _ Hnet).
    cbn [snd trace]. rewrite calls_of_app. cbn. apply app_nil_r.
Qed.

Lemma get_cookie_details_calls cookie_name retries w :
  calls_of (trace (snd (get_cookie_details cookie_name retries w)))
  = (calls_of (trace w) ++ [cookie_name])%list.
Proof.
  rewrite get_cookie_details_unfold.
  assert (H := retry_loop_calls cookie_name (seq 0 (Z.to_nat retries))
                 (emit (EvCall cookie_name) w)).
  destruct (retry_loop _ _ _) as [[e|[v|]] w']; cbn [snd] in *;
    rewrite H; unfold emit; cbn [trace]; rewrite calls_of_app; reflexivity.
Qed.

Lemma try_body_unfold cookie_name domain_category w :
  try_body cookie_name domain_category w
  = match get_cookie_details cookie_name (MAX_RETRIES sliders)
            (emit (EvSleep 1) w) with
    | (inr api_details, w') =>
        (reconcile cookie_name domain_category api_details, w')
    | (inl e, w') => (inl e, w')
    end.
Proof.
  unfold try_body, bind, time_sleep, lift, ret, raise.
  destruct (get_cookie_details _ _ _) as [[e|v] w']; [reflexivity|].
  destruct (reconcile _ _ _); reflexivity.
Qed.

Lemma try_body_calls cookie_name domain_category w :
  calls_of (trace (snd (try_body cookie_name domain_category w)))
  = (calls_of (trace w) ++ [cookie_name])%list.
Proof.
  rewrite try_body_unfold.
  assert (H := get_cookie_details_calls cookie_name (MAX_RETRIES sliders)
                 (emit (EvSleep 1) w)).
  destruct (get_cookie_details _ _ _) as [[e|v] w']; cbn [snd] in *;
    rewrite H; unfold emit; cbn [trace]; rewrite calls_of_app; cbn;
    rewrite app_nil_r; reflexivity.
Qed.

Lemma record_rows_calls cookie_name domain_category w :
  calls_of (trace (snd (record_rows cookie_name domain_category w)))
  = (calls_of (trace w) ++ [cookie_name])%list.
Proof.
  unfold record_rows.
  assert (H := try_body_calls cookie_name domain_category w).
  destruct (try_body _ _ _) as [[e|rows] w']; exact H.
Qed.

Lemma process_record_rows cookie_name domain_category w :
  process_record cookie_name domain_category w
  = (inr (fst (record_rows cookie_name domain_category w)),
     snd (record_rows cookie_name domain_category w)).
Proof.
  unfold process_record, try_except, record_rows.
  destruct (try_body _ _ _) as [[e|rows] w']; reflexivity.
Qed.

Lemma chunk_pause_returns index total_cookies w :
  fst (chunk_pause index total_cookies w) = inr tt.
Proof. unfold chunk_pause. destruct (_ && _); reflexivity. Qed.

Lemma chunk_pause_calls index total_cookies w :
  calls_of (trace (snd (chunk_pause index total_cookies w)))
  = calls_of (trace w).
Proof.
  unfold chunk_pause. destruct (_ && _); [|reflexivity].
  cbn. rewrite calls_of_app. cbn. apply app_nil_r.
Qed.

(** The loop never raises: it is [loop_rows]. *)
Lemma process_loop_rows total_cookies cookie_records :
  forall index w,
    process_loop total_cookies index cookie_records w
    = (inr (fst (loop_rows total_cookies index cookie_records w)),
       snd (loop_rows total_cookies index cookie_records w)).
Proof.
  induction cookie_records as [|[n d] rest IH]; intros index w; [reflexivity|].
  cbn [process_loop loop_rows]. unfold bind at 1.
  rewrite process_record_rows.
  destruct (record_rows n d w) as [rows w1]. cbn [fst snd].
  unfold bind at 1.
  assert (Hret := chunk_pause_returns index total_cookies w1).
  destruct (chunk_pause index total_cookies w1) as [r w2].
  cbn [fst snd] in *. subst r.
  unfold bind. rewrite IH.
  destruct (loop_rows total_cookies (S index) rest w2) as [more w3].
  reflexivity.
Qed.

Lemma loop_rows_app total_cookies l1 l2 :
  forall index w,
    loop_rows total_cookies index (l1 ++ l2)%list w
    = let (rows1, w1) := loop_rows total_cookies index l1 w in
      let (rows2, w2) :=
        loop_rows total_cookies (index + List.length l1) l2 w1 in
      ((rows1 ++ rows2)%list, w2).
Proof.
  induction l1 as [|[n d] l1 IH]; intros index w.
  - cbn. rewrite Nat.add_0_r.
    destruct (loop_rows total_cookies index l2 w); reflexivity.
  - cbn [app loop_rows List.length].
    destruct (record_rows n d w) as [rows w1].
    rewrite IH.
    destruct (loop_rows total_cookies (S index) l1 _) as [rows1 w2].
    replace (S index + List.length l1)%nat
      with (index + S (List.length l1))%nat by lia.
    destruct (loop_rows total_cookies _ l2 w2) as [rows2 w3].
    rewrite app_assoc. reflexivity.
Qed.

Lemma loop_rows_calls total_cookies cookie_records :
  forall index w,
    calls_of (trace (snd (loop_rows total_cookies index cookie_records w)))
    = (calls_of (trace w) ++ map fst cookie_records)%list.
Proof.
  induction cookie_records as [|[n d] rest IH]; intros index w.
  - cbn. rewrite app_nil_r. reflexivity.
  - cbn [loop_rows].
    assert (Hrec := record_rows_calls n d w).
    destruct (record_rows n d w) as [rows w1]. cbn [snd] in Hrec.
    specialize (IH (S index) (snd (chunk_pause index total_cookies w1))).
    destruct (loop_rows total_cookies (S index) rest _) as [more w3].
    cbn [snd] in *. rewrite IH, chunk_pause_calls, Hrec.
    rewrite <- app_assoc. reflexivity.
Qed.

Lemma process_dataframe_split df1 n d df2 w :
  let total := List.length (df1 ++ (n, d) :: df2)%list in
  process_dataframe (df1 ++ (n, d) :: df2)%list w
  = let (rows1, w1) := loop_rows total 0 df1 w in
    let (rows, w2) := record_rows n d w1 in
    let (rows2, w3) :=
      loop_rows total (S (List.length df1)) df2
                (snd (chunk_pause (List.length df1) total w2)) in
    (inr (rows1 ++ rows ++ rows2)%list, w3).
Proof.
  intros total. unfold process_dataframe. fold total.
  rewrite process_loop_rows, loop_rows_app.
  destruct (loop_rows total 0 df1 w) as [rows1 w1].
  cbn [loop_rows Nat.add].
  destruct (record_rows n d w1) as [rows w2].
  destruct (loop_rows total (S (List.length df1)) df2 _) as [rows2 w3].
  reflexivity.
Qed.

(** An attempt that gets a decoded body ends the call; no attempt
    follows it. *)
Lemma get_cookie_details_responded cookie_name retries w a response_data :
  (a < Z.to_nat retries)%nat ->
  fails_next cookie_name w a ->
  net (posts w + a) cookie_name = Responded response_data ->
  get_cookie_details cookie_name retries w
  = (match answer_of response_data with
     | inr (Some v) => inr v
     | inr None => inr (error_result cookie_name retries)
     | inl e => inl e
     end,
     mkWorld (posts w + S a)
       (trace w ++ EvCall cookie_name
          :: failed_trace cookie_name (seq 0 a) (posts w)
          ++ [EvPost cookie_name])).
Proof.
  intros Ha Hfail Hnet.
  rewrite get_cookie_details_unfold.
  rewrite (get_cookie_details_failed_prefix _ _ _ a); [|lia|exact Hfail].
  replace (Z.to_nat retries - a)%nat
    with (S (Z.to_nat retries - S a)) by lia.
  cbn [seq].
  rewrite (retry_loop_responded_step _ _ _ _ response_data); [|exact Hnet].
  cbn [posts trace]. rewrite <- app_assoc. cbn [app].
  replace (S (posts w + a)) with (posts w + S a)%nat by lia.
  destruct (answer_of response_data) as [e|[v|]]; reflexivity.
Qed.

Lemma no_candidates_answer response_data :
  no_candidates response_data -> answer_of response_data = inr (Some PNone).
Proof.
  intros [items [-> Hcand]].
  unfold answer_of, candidates_test, py_contains, py_getitem_str, bindE.
  destruct (dict_lookup "candidates" items) as [c|] eqn:Hlook.
  - rewrite (Hcand c eq_refl). reflexivity.
  - reflexivity.
Qed.

(** C2: when the attempt that gets through brings a decoded body
    without candidates, the client returns [None], the pass over the
    record appends nothing, and the batch result holds the rows of the
    records before and after it and none for this cookie. *)
Theorem no_candidates_record_dropped df1 n d df2 w rows1 w1 a response_data :
  let total := List.length (df1 ++ (n, d) :: df2)%list in
  process_loop total 0 df1 w = (inr rows1, w1) ->
  (a < Z.to_nat (MAX_RETRIES sliders))%nat ->
  fails_next n w1 a ->
  net (posts w1 + a) n = Responded response_data ->
  no_candidates response_data ->
  fst (get_cookie_details n (MAX_RETRIES sliders) (emit (EvSleep 1) w1))
  = inr PNone
  /\ fst (process_record n d w1) = inr []
  /\ exists rows2 w',
      process_loop total (S (List.length df1)) df2
        (snd (chunk_pause (List.length df1) total
                (snd (process_record n d w1))))
      = (inr rows2, w')
      /\ process_dataframe (df1 ++ (n, d) :: df2)%list w
         = (inr (rows1 ++ rows2)%list, w').
Proof.
  intros total Hloop Ha Hfail Hnet Hnone.
  assert (Hcall :
    fst (get_cookie_details n (MAX_RETRIES sliders) (emit (EvSleep 1) w1))
    = inr PNone).
  { rewrite (get_cookie_details_responded _ _ _ a response_data);
      [|exact Ha|exact Hfail|exact Hnet].
    rewrite (no_candidates_answer _ Hnone). reflexivity. }
  assert (Hrows : fst (record_rows n d w1) = []).
  { unfold record_rows. rewrite try_body_unfold.
    destruct (get_cookie_details _ _ _) as [[e|v] w2]; cbn [fst] in Hcall;
      [discriminate|].
    injection Hcall as ->. reflexivity. }
  split; [exact Hcall|].
  split; [rewrite process_record_rows, Hrows; reflexivity|].
  pose proof (process_dataframe_split df1 n d df2 w) as Hsplit.
  fold total in Hsplit. cbv zeta in Hsplit.
  rewrite process_loop_rows in Hloop. injection Hloop as Hr1 Hw1.
  rewrite process_record_rows. cbn [snd].
  destruct (loop_rows total 0 df1 w) as [r1 w1'].
  cbn [fst snd] in *. subst r1 w1'.
  destruct (record_rows n d w1) as [rows w2].
  cbn [fst snd] in *. subst rows.
  rewrite process_loop_rows.
  destruct (loop_rows total (S (List.length df1)) df2 _) as [rows2 w3].
  exists rows2, w3. split; [reflexivity|exact Hsplit].
Qed.

(** C7: when what stands under [try] raises for one record, a row with
    "Processing Error" and [str(e)] is appended for it, the records
    after it are processed all the same, and the batch returns the rows
    of the records before, that row, and the rows of the records after;
    the client was called once for every record of the batch, in order. *)
Theorem processing_error_does_not_abort df1 n d df2 w rows1 w1 e w2 :
  let total := List.length (df1 ++ (n, d) :: df2)%list in
  process_loop total 0 df1 w = (inr rows1, w1) ->
  try_body n d w1 = (inl e, w2) ->
  exists rows2 w',
    process_loop total (S (List.length df1)) df2
      (snd (chunk_pause (List.length df1) total w2))
    = (inr rows2, w')
    /\ process_dataframe (df1 ++ (n, d) :: df2)%list w
       = (inr (rows1
                 ++ mkResult n d (PStr "Processing Error") (PStr (str_exn e))
                 :: rows2)%list, w')
    /\ calls_of (trace w')
       = (calls_of (trace w) ++ map fst (df1 ++ (n, d) :: df2))%list.
Proof.
  intros total Hloop Hbody.
  pose proof (process_dataframe_split df1 n d df2 w) as Hsplit.
  fold total in Hsplit. cbv zeta in Hsplit.
  assert (Hcalls :=
    loop_rows_calls total (df1 ++ (n, d) :: df2)%list 0 w).
  assert (Hrun : process_dataframe (df1 ++ (n, d) :: df2)%list w
                 = (inr (fst (loop_rows total 0 (df1 ++ (n, d) :: df2)%list w)),
                    snd (loop_rows total 0 (df1 ++ (n, d) :: df2)%list w)))
    by apply process_loop_rows.
  rewrite process_loop_rows in Hloop. injection Hloop as Hr1 Hw1.
  destruct (loop_rows total 0 df1 w) as [r1 w1'].
  cbn [fst snd] in *. subst r1 w1'.
  unfold record_rows in Hsplit. rewrite Hbody in Hsplit.
  rewrite process_loop_rows.
  destruct (loop_rows total (S (List.length df1)) df2 _) as [rows2 w3].
  exists rows2, w3. split; [reflexivity|].
  split; [exact Hsplit|].
  rewrite Hsplit in Hrun. injection Hrun as _ Hw3.
  rewrite <- Hw3 in Hcalls. exact Hcalls.
Qed.

(** C10: when an attempt gets a decoded body with candidates but the
    path to the payload text is not there, or the text does not parse,
    the exception leaves [get_cookie_details] at once: the post of that
    attempt is the last one, whatever [MAX_RETRIES] allows.  The
    handler of the record turns it into a "Processing Error" row. *)
Theorem malformed_payload_not_retried n d w a response_data c e :
  (a < Z.to_nat (MAX_RETRIES sliders))%nat ->
  fails_next n w a ->
  net (posts w + a) n = Responded response_data ->
  candidates_test response_data = inr c ->
  truthy c = true ->
  (candidate_text response_data = inl e
   \/ exists text, candidate_text response_data = inr text
                   /\ py_json_loads json_loads text = inl e) ->
  get_cookie_details n (MAX_RETRIES sliders) w
  = (inl e,
     mkWorld (posts w + S a)
       (trace w ++ EvCall n :: failed_trace n (seq 0 a) (posts w)
          ++ [EvPost n]))
  /\ fst (process_record n d w)
     = inr [mkResult n d (PStr "Processing Error") (PStr (str_exn e))]
  /\ posts (snd (process_record n d w)) = (posts w + S a)%nat.
Proof.
  intros Ha Hfail Hnet Htest Htruthy Hbad.
  assert (Hanswer : answer_of response_data = inl e).
  { unfold answer_of. rewrite Htest. cbn [bindE]. rewrite Htruthy.
    destruct Hbad as [Hpath|[text [Hpath Hparse]]]; rewrite Hpath; cbn [bindE].
    - reflexivity.
    - rewrite Hparse. reflexivity. }
  assert (Hgen : forall w0, posts w0 = posts w ->
    get_cookie_details n (MAX_RETRIES sliders) w0
    = (inl e,
       mkWorld (posts w0 + S a)
         (trace w0 ++ EvCall n :: failed_trace n (seq 0 a) (posts w0)
            ++ [EvPost n]))).
  { intros w0 Hposts.
    rewrite (get_cookie_details_responded _ _ _ a response_data).
    - rewrite Hanswer. reflexivity.
    - exact Ha.
    - unfold fails_next. rewrite Hposts. exact Hfail.
    - rewrite Hposts. exact Hnet. }
  split; [apply Hgen; reflexivity|].
  rewrite process_record_rows. unfold record_rows.
  rewrite try_body_unfold, (Hgen (emit (EvSleep 1) w) eq_refl).
  split; reflexivity.
Qed.

(** *** The reconciliation rules *)

(** C1: for a result that carries recommended category [G] and
    justification [J], and a domain category [D], one row is appended
    and its final category and justification follow the five-way table:
    [G = D = "Unknown"]; [G = D] otherwise; [G <> D] with [G] unknown;
    [G <> D] with only [D] unknown; both known and different. *)
Theorem reconcile_rule_table cookie_name D items G J :
  dict_lookup "recommendedCategory" items = Some (PStr G) ->
  dict_lookup "justification" items = Some (PStr J) ->
  exists final_category final_justification,
    reconcile cookie_name D (PDict items)
    = inr [mkResult cookie_name D (PStr final_category)
                    (PStr final_justification)]
    /\ (G = D -> G = "Unknown" ->
        final_category = G
        /\ final_justification = "Need confirmation from Client")
    /\ (G = D -> G <> "Unknown" ->
        final_category = G /\ final_justification = "N/A")
    /\ (G <> D -> G = "Unknown" ->
        final_category = D /\ final_justification = "N/A")
    /\ (G <> D -> G <> "Unknown" -> D = "Unknown" ->
        final_category = G /\ final_justification = J)
    /\ (G <> D -> G <> "Unknown" -> D <> "Unknown" ->
        final_category = D ++ "/" ++ G
        /\ final_justification
           = "Depending on the website's use case it can be classified as "
               ++ D ++ "/" ++ G ++ ". " ++ J).
Proof.
  intros HG HJ.
  assert (Htruthy : truthy (PDict items) = true).
  { destruct items; [discriminate|reflexivity]. }
  unfold reconcile. rewrite Htruthy.
  unfold py_get, bindE. rewrite HG, HJ.
  unfold merge_categories, py_eq_str. cbn [py_str].
  destruct (String.eqb_spec G D) as [HGD|HGD];
    destruct (String.eqb_spec G "Unknown") as [HGU|HGU];
    [| | |destruct (String.eqb_spec D "Unknown") as [HDU|HDU]];
    cbn [negb fst snd]; do 2 eexists; (split; [reflexivity|]);
    repeat split; intros; try congruence.
Qed.

(** C8, as it holds: two reconciliations with the same recommended
    category and the same domain category give the same final category;
    they give the same final justification too when the justifications
    they start from are the same, and also whenever the recommended
    category equals the domain category or is "Unknown". *)
Theorem reconcile_determined_by_inputs cookie_name D a1 a2 G J1 J2 :
  truthy a1 = true -> truthy a2 = true ->
  py_get a1 "recommendedCategory" (PStr "Unknown") = inr G ->
  py_get a2 "recommendedCategory" (PStr "Unknown") = inr G ->
  py_get a1 "justification" (PStr "") = inr J1 ->
  py_get a2 "justification" (PStr "") = inr J2 ->
  exists final_category j1 j2,
    reconcile cookie_name D a1 = inr [mkResult cookie_name D final_category j1]
    /\ reconcile cookie_name D a2
       = inr [mkResult cookie_name D final_category j2]
    /\ (J1 = J2 -> j1 = j2)
    /\ (py_eq_str G D = true \/ py_eq_str G "Unknown" = true -> j1 = j2).
Proof.
  intros Ht1 Ht2 HG1 HG2 HJ1 HJ2.
  unfold reconcile. rewrite Ht1, Ht2, HG1, HG2, HJ1, HJ2. cbn [bindE].
  unfold merge_categories.
  destruct (py_eq_str G D) eqn:HGD; destruct (py_eq_str G "Unknown") eqn:HGU;
    [| | |destruct (negb (D =? "Unknown")%string)];
    cbn [fst snd]; do 3 eexists;
    (split; [reflexivity|]); (split; [reflexivity|]);
    split; intros H; try reflexivity; try congruence;
    destruct H; discriminate.
Qed.

(** *** Deduplication and the join *)

Lemma name_in_In (n : string) (seen : list string) :
  name_in n seen = true <-> In n seen.
Proof.
  unfold name_in. rewrite existsb_exists. split.
  - intros [x [Hx Heq]]. apply String.eqb_eq in Heq. subst. exact Hx.
  - intros H. exists n. split; [exact H|apply String.eqb_refl].
Qed.

Lemma name_in_not_In (n : string) (seen : list string) :
  name_in n seen = false <-> ~ In n seen.
Proof.
  rewrite <- name_in_In. destruct (name_in n seen); split; intros H;
    try discriminate; try reflexivity; try (intros H'; discriminate);
    exfalso; apply H; reflexivity.
Qed.

Lemma drop_duplicates_from_names (df : table) :
  forall seen n,
    In n (map fst (drop_duplicates_from seen df))
    <-> In n (map fst df) /\ ~ In n seen.
Proof.
  induction df as [|[m d] rest IH]; intros seen n; cbn.
  - tauto.
  - destruct (name_in m seen) eqn:Hseen.
    + apply name_in_In in Hseen. rewrite IH.
      split; [tauto|]. intros [[->|H] Hn]; [contradiction|tauto].
    + apply name_in_not_In in Hseen. cbn. rewrite IH. cbn.
      destruct (string_dec m n) as [->|Hne]; [tauto|]. tauto.
Qed.

Lemma drop_duplicates_from_NoDup (df : table) :
  forall seen, NoDup (map fst (drop_duplicates_from seen df)).
Proof.
  induction df as [|[m d] rest IH]; intros seen; cbn.
  - constructor.
  - destruct (name_in m seen); [apply IH|].
    cbn. constructor; [|apply IH].
    rewrite drop_duplicates_from_names. cbn. tauto.
Qed.

Lemma drop_duplicates_from_first (df : table) :
  forall seen n,
    ~ In n seen ->
    first_row n (drop_duplicates_from seen df) = first_row n df.
Proof.
  unfold first_row.
  induction df as [|[m d] rest IH]; intros seen n Hn; cbn; [reflexivity|].
  destruct (name_in m seen) eqn:Hseen.
  - apply name_in_In in Hseen.
    destruct (String.eqb_spec m n) as [->|Hne]; [contradiction|].
    apply IH. exact Hn.
  - cbn. destruct (String.eqb_spec m n) as [->|Hne]; [reflexivity|].
    apply IH. cbn. intros [H|H]; [contradiction|contradiction].
Qed.

Lemma first_row_In (n : string) (df : table) (r : string * string) :
  first_row n df = Some r -> In r df /\ fst r = n.
Proof.
  unfold first_row. intros H. apply find_some in H.
  destruct H as [Hin Heq]. apply String.eqb_eq in Heq. tauto.
Qed.

Lemma NoDup_count_one (n : string) (l : list string) :
  NoDup l -> In n l -> count_occ string_dec l n = 1%nat.
Proof.
  intros Hnd Hin.
  assert (H1 := proj1 (NoDup_count_occ string_dec l) Hnd n).
  assert (H2 := proj1 (count_occ_In string_dec l n) Hin).
  lia.
Qed.

Lemma matching_map_filter (n : string) (rows : list result_row) :
  matching n (map result_cols rows)
  = map result_cols (filter (named n) rows).
Proof.
  unfold matching, named.
  induction rows as [|r rows IH]; [reflexivity|].
  cbn. destruct (Cookie_Name r =? n)%string; cbn; rewrite IH; reflexivity.
Qed.

(** With at most one right row per name, the left merge is a map over
    the left rows: same length, same order. *)
Lemma merge_left_join (left : table) right :
  (forall n, (List.length (matching n right) <= 1)%nat) ->
  merge_left left right = map (join_row right) left.
Proof.
  intros Huniq. unfold merge_left.
  induction left as [|row left IH]; [reflexivity|].
  cbn [flat_map map]. rewrite IH. clear IH.
  unfold merge_row, join_row, joined_fields.
  specialize (Huniq (fst row)).
  destruct (matching (fst row) right) as [|m [|m' ms]]; cbn in *;
    [reflexivity|reflexivity|lia].
Qed.

Lemma reconcile_shape cookie_name domain_category api_details rows :
  reconcile cookie_name domain_category api_details = inr rows ->
  rows = [] \/ exists c j, rows = [mkResult cookie_name domain_category c j].
Proof.
  unfold reconcile. destruct (truthy api_details).
  - destruct (py_get api_details "recommendedCategory" _) as [e|g];
      cbn [bindE]; [discriminate|].
    destruct (py_get api_details "justification" _) as [e|j];
      cbn [bindE]; [discriminate|].
    intros H. injection H as <-. right. eauto.
  - intros H. injection H as <-. left. reflexivity.
Qed.

Lemma record_rows_shape cookie_name domain_category w :
  fst (record_rows cookie_name domain_category w) = []
  \/ exists c j, fst (record_rows cookie_name domain_category w)
                 = [mkResult cookie_name domain_category c j].
Proof.
  unfold record_rows. rewrite try_body_unfold.
  destruct (get_cookie_details _ _ _) as [[e|v] w'].
  - right. cbn. unfold processing_error. eauto.
  - destruct (reconcile cookie_name domain_category v) as [e|rows] eqn:Hrec.
    + right. cbn. unfold processing_error. eauto.
    + cbn. apply (reconcile_shape _ _ _ _ Hrec).
Qed.

Lemma record_rows_filter_same n d w :
  filter (named n) (fst (record_rows n d w)) = fst (record_rows n d w).
Proof.
  destruct (record_rows_shape n d w) as [H|[c [j H]]]; rewrite H;
    [reflexivity|].
  cbn. unfold named. cbn. rewrite String.eqb_refl. reflexivity.
Qed.

Lemma record_rows_filter_other n d w x :
  n <> x -> filter (named x) (fst (record_rows n d w)) = [].
Proof.
  intros Hne.
  destruct (record_rows_shape n d w) as [H|[c [j H]]]; rewrite H;
    [reflexivity|].
  cbn. unfold named. cbn.
  destruct (String.eqb_spec n x); [contradiction|reflexivity].
Qed.

(** Among the rows of a run over records with distinct names, the rows
    named [x] are those of the one record named [x], if there is one. *)
Lemma loop_rows_filter total_cookies cookie_records x :
  NoDup (map fst cookie_records) ->
  forall index w,
    (~ In x (map fst cookie_records)
     /\ filter (named x)
          (fst (loop_rows total_cookies index cookie_records w)) = [])
    \/ (exists d wx,
           In (x, d) cookie_records
           /\ filter (named x)
                (fst (loop_rows total_cookies index cookie_records w))
              = fst (record_rows x d wx)).
Proof.
  induction cookie_records as [|[n d] rest IH]; intros Hnd index w.
  - left. cbn. tauto.
  - cbn [map fst] in Hnd. inversion Hnd as [|? ? Hnotin Hrest]; subst.
    cbn [loop_rows].
    assert (Hsame := record_rows_filter_same n d w).
    assert (Hother := record_rows_filter_other n d w x).
    destruct (record_rows n d w) as [rows w1] eqn:Hrr.
    cbn [fst] in Hsame, Hother.
    specialize (IH Hrest (S index)
                   (snd (chunk_pause index total_cookies w1))).
    destruct (loop_rows total_cookies (S index) rest _) as [more w3].
    cbn [fst] in *. rewrite filter_app.
    destruct (string_dec n x) as [->|Hne].
    + right. exists d, w.
      destruct IH as [[_ Hnil]|[d' [wx [Hin _]]]].
      * rewrite Hnil, app_nil_r, Hsame.
        split; [left; reflexivity|].
        rewrite Hrr. reflexivity.
      * exfalso. apply Hnotin. apply (in_map fst) in Hin. exact Hin.
    + rewrite (Hother Hne). cbn [app].
      destruct IH as [[Hnot Hnil]|[d' [wx [Hin Heq]]]].
      * left. split; [|exact Hnil]. cbn. tauto.
      * right. exists d', wx. split; [right; exact Hin|exact Heq].
Qed.

Lemma NoDup_fst_unique (df : table) x d1 d2 :
  NoDup (map fst df) -> In (x, d1) df -> In (x, d2) df -> d1 = d2.
Proof.
  induction df as [|[n d] rest IH]; intros Hnd H1 H2; [contradiction|].
  cbn [map fst] in Hnd. inversion Hnd as [|? ? Hnotin Hrest]; subst.
  destruct H1 as [H1|H1], H2 as [H2|H2].
  - congruence.
  - injection H1 as -> ->. exfalso. apply Hnotin.
    apply (in_map fst) in H2. exact H2.
  - injection H2 as -> ->. exfalso. apply Hnotin.
    apply (in_map fst) in H1. exact H1.
  - apply IH; assumption.
Qed.

(** *** The whole analysis *)

Lemma process_dataframe_rows input_df w :
  process_dataframe (drop_duplicates input_df) w
  = (inr (fst (unique_rows input_df w)), snd (unique_rows input_df w)).
Proof. unfold process_dataframe. apply process_loop_rows. Qed.

Lemma analyse_unfold input_df w :
  analyse input_df w
  = (match select_result_columns (fst (unique_rows input_df w)) with
     | inr cols => inr (merge_left input_df cols)
     | inl e => inl e
     end,
     snd (unique_rows input_df w)).
Proof.
  unfold analyse, bind. rewrite process_dataframe_rows.
  unfold lift, ret, raise.
  destruct (select_result_columns _); reflexivity.
Qed.

Lemma unique_rows_matching input_df w n :
  (List.length (matching n (map result_cols (fst (unique_rows input_df w))))
   <= 1)%nat.
Proof.
  rewrite matching_map_filter, length_map. unfold unique_rows.
  destruct (loop_rows_filter (List.length (drop_duplicates input_df))
              (drop_duplicates input_df) n
              (drop_duplicates_from_NoDup input_df []) 0%nat w)
    as [[_ Hnil]|[d [wx [_ Heq]]]].
  - rewrite Hnil. cbn. lia.
  - rewrite Heq.
    destruct (record_rows_shape n d wx) as [H|[c [j H]]]; rewrite H; cbn; lia.
Qed.

(** Once the batch has appended a row, the output table exists and is
    the input table, row by row, extended with the joined fields. *)
Lemma analyse_output input_df w :
  fst (unique_rows input_df w) <> [] ->
  fst (analyse input_df w)
  = inr (map (join_row (map result_cols (fst (unique_rows input_df w))))
             input_df).
Proof.
  intros Hne. rewrite analyse_unfold. cbn [fst].
  unfold select_result_columns.
  destruct (fst (unique_rows input_df w)) as [|r rows] eqn:Hrows;
    [contradiction|].
  rewrite merge_left_join; [reflexivity|].
  intros n. rewrite <- Hrows. apply unique_rows_matching.
Qed.

Lemma analyse_calls input_df w :
  calls_of (trace (snd (analyse input_df w)))
  = (calls_of (trace w) ++ map fst (drop_duplicates input_df))%list.
Proof.
  rewrite analyse_unfold. cbn [snd]. apply loop_rows_calls.
Qed.

Lemma join_rows_count right (input_df : table) x :
  List.length (filter (out_named x) (map (join_row right) input_df))
  = count_occ string_dec (map fst input_df) x.
Proof.
  induction input_df as [|[n d] rest IH]; [reflexivity|].
  cbn [map filter fst count_occ]. unfold out_named at 1. cbn.
  destruct (string_dec n x) as [->|Hne].
  - rewrite String.eqb_refl. cbn. rewrite IH. reflexivity.
  - destruct (String.eqb_spec n x); [contradiction|]. exact IH.
Qed.

Lemma join_rows_fields right (input_df : table) x o :
  In o (map (join_row right) input_df) ->
  out_Cookie_Name o = x ->
  out_Recommended_Category o = fst (joined_fields right x)
  /\ out_Justification o = snd (joined_fields right x).
Proof.
  intros Hin Hname. apply in_map_iff in Hin.
  destruct Hin as [row [<- _]]. cbn in *. subst x. split; reflexivity.
Qed.

Lemma analyse_inr_rows input_df w out :
  fst (analyse input_df w) = inr out ->
  fst (unique_rows input_df w) <> [].
Proof.
  rewrite analyse_unfold. cbn [fst]. intros H Hnil.
  rewrite Hnil in H. discriminate.
Qed.

(** What holds of duplicates on every run: when a cookie name occurs
    [k > 1] times in the input, the client is called exactly once for
    it; whenever an output table is produced it has [k] rows for that
    name and they all carry the same Recommended Category and
    Justification; and an output table is produced as soon as the batch
    has appended at least one row. *)
Theorem duplicates_one_call_same_fields input_df x k w :
  count_occ string_dec (map fst input_df) x = k ->
  (1 < k)%nat ->
  (exists calls,
      calls_of (trace (snd (analyse input_df w)))
      = (calls_of (trace w) ++ calls)%list
      /\ count_occ string_dec calls x = 1%nat)
  /\ (forall out,
         fst (analyse input_df w) = inr out ->
         List.length (filter (out_named x) out) = k
         /\ exists category justification,
             forall o, In o out -> out_Cookie_Name o = x ->
                       out_Recommended_Category o = category
                       /\ out_Justification o = justification)
  /\ (fst (process_dataframe (drop_duplicates input_df) w) <> inr [] ->
      exists out, fst (analyse input_df w) = inr out).
Proof.
  intros Hcount Hk. repeat split.
  - exists (map fst (drop_duplicates input_df)).
    split; [apply analyse_calls|].
    apply NoDup_count_one; [apply drop_duplicates_from_NoDup|].
    unfold drop_duplicates. rewrite drop_duplicates_from_names.
    split; [|intros []].
    apply (count_occ_In string_dec). lia.
  - assert (Hne := analyse_inr_rows _ _ _ H).
    rewrite (analyse_output _ _ Hne) in H. injection H as <-.
    rewrite join_rows_count. exact Hcount.
  - assert (Hne := analyse_inr_rows _ _ _ H).
    rewrite (analyse_output _ _ Hne) in H. injection H as <-.
    do 2 eexists. intros o Hin Hname.
    apply (join_rows_fields _ _ _ _ Hin Hname).
  - intros Hrows. rewrite process_dataframe_rows in Hrows. cbn [fst] in Hrows.
    eexists. apply analyse_output. congruence.
Qed.

Lemma record_rows_exhausted x D w0 :
  (forall k, is_failure (net k x) = true) ->
  D <> "Error" -> D <> "Unknown" ->
  fst (record_rows x D w0)
  = [mkResult x D (PStr (D ++ "/Error"))
       (PStr ("Depending on the website's use case it can be classified as "
                ++ D ++ "/Error. API call failed after "
                ++ str_int (MAX_RETRIES sliders) ++ " attempts."))].
Proof.
  intros Hfail HE HU.
  unfold record_rows. rewrite try_body_unfold.
  rewrite get_cookie_details_unfold.
  rewrite (get_cookie_details_failed_prefix _ _ _
             (Z.to_nat (MAX_RETRIES sliders)));
    [|lia|intros i _; apply Hfail].
  rewrite Nat.sub_diag. cbn [seq retry_loop ret]. unfold error_result.
  unfold reconcile. cbn [truthy py_get dict_lookup String.eqb Ascii.eqb
                         Bool.eqb bindE].
  unfold merge_categories, py_eq_str. cbn [py_str].
  destruct (String.eqb_spec "Error" D) as [Heq|_]; [congruence|].
  destruct (String.eqb_spec D "Unknown") as [Heq|_]; [congruence|].
  reflexivity.
Qed.

(** C9: when every attempt for a cookie fails and the domain category
    [D] of its first row is neither "Error" nor "Unknown", the error
    placeholder goes through the reconciliation rules: the batch holds
    exactly one row for the cookie, with final category [D/Error] and
    the dual-use sentence followed by the failure message, and every
    output row of that cookie carries these two fields. *)
Theorem exhausted_retries_reconciled input_df x D w :
  first_row x input_df = Some (x, D) ->
  D <> "Error" -> D <> "Unknown" ->
  (forall k, is_failure (net k x) = true) ->
  let category := PStr (D ++ "/Error") in
  let justification :=
    PStr ("Depending on the website's use case it can be classified as "
            ++ D ++ "/Error. API call failed after "
            ++ str_int (MAX_RETRIES sliders) ++ " attempts.") in
  exists results out,
    fst (process_dataframe (drop_duplicates input_df) w) = inr results
    /\ filter (named x) results = [mkResult x D category justification]
    /\ fst (analyse input_df w) = inr out
    /\ (0 < List.length (filter (out_named x) out))%nat
    /\ forall o, In o out -> out_Cookie_Name o = x ->
                 out_Recommended_Category o = Some category
                 /\ out_Justification o = Some justification.
Proof.
  intros Hfirst HE HU Hfail category justification.
  assert (Hnd := drop_duplicates_from_NoDup input_df []).
  assert (Hin : In (x, D) (drop_duplicates input_df)).
  { unfold drop_duplicates.
    rewrite <- (drop_duplicates_from_first input_df [] x) in Hfirst;
      [|intros []].
    apply first_row_In in Hfirst. tauto. }
  assert (Hfilter :
    filter (named x) (fst (unique_rows input_df w))
    = [mkResult x D category justification]).
  { unfold unique_rows.
    destruct (loop_rows_filter (List.length (drop_duplicates input_df))
                (drop_duplicates input_df) x Hnd 0%nat w)
      as [[Hnot _]|[d [wx [Hin' Heq]]]].
    - exfalso. apply Hnot. apply (in_map fst) in Hin. exact Hin.
    - assert (d = D) by (eapply NoDup_fst_unique; eassumption). subst d.
      rewrite Heq. apply record_rows_exhausted; assumption. }
  assert (Hne : fst (unique_rows input_df w) <> []).
  { intros Hnil. rewrite Hnil in Hfilter. discriminate. }
  exists (fst (unique_rows input_df w)).
  eexists. rewrite process_dataframe_rows.
  split; [reflexivity|]. split; [exact Hfilter|].
  split; [apply (analyse_output _ _ Hne)|].
  split.
  - rewrite join_rows_count.
    apply first_row_In in Hfirst. destruct Hfirst as [Hrow _].
    apply (in_map fst) in Hrow. cbn in Hrow.
    apply (count_occ_In string_dec). exact Hrow.
  - intros o Ho Hname.
    destruct (join_rows_fields _ _ _ _ Ho Hname) as [-> ->].
    unfold joined_fields. rewrite matching_map_filter, Hfilter.
    split; reflexivity.
Qed.

(** *** Further properties of the client *)

Lemma positions_fail_or_not cookie_name w n :
  fails_next cookie_name w n
  \/ exists a, (a < n)%nat /\ fails_next cookie_name w a
               /\ is_failure (net (posts w + a) cookie_name) = false.
Proof.
  induction n as [|n IH].
  - left. intros i Hi. lia.
  - destruct IH as [Hall|[a [Ha [Hfail Hgood]]]].
    + destruct (is_failure (net (posts w + n) cookie_name)) eqn:Hn.
      * left. intros i Hi.
        destruct (Nat.eq_dec i n) as [->|Hne]; [exact Hn|].
        apply Hall. lia.
      * right. exists n. split; [lia|]. split; assumption.
    + right. exists a. split; [lia|]. split; assumption.
Qed.

Lemma answer_of_payload response_data :
  answer_of response_data
  = match payload_of response_data with
    | inr v => inr (Some v)
    | inl e => inl e
    end.
Proof.
  unfold answer_of, payload_of, bindE.
  destruct (candidates_test response_data) as [e|c]; [reflexivity|].
  destruct (truthy c); [|reflexivity].
  destruct (candidate_text response_data) as [e|text]; [reflexivity|].
  destruct (py_json_loads json_loads text); reflexivity.
Qed.

Lemma get_cookie_details_raised cookie_name retries w a e :
  (a < Z.to_nat retries)%nat ->
  fails_next cookie_name w a ->
  net (posts w + a) cookie_name = Raised e ->
  get_cookie_details cookie_name retries w
  = (inl e,
     mkWorld (posts w + S a)
       (trace w ++ EvCall cookie_name
          :: failed_trace cookie_name (seq 0 a) (posts w)
          ++ [EvPost cookie_name])).
Proof.
  intros Ha Hfail Hnet.
  rewrite get_cookie_details_unfold.
  rewrite (get_cookie_details_failed_prefix _ _ _ a); [|lia|exact Hfail].
  replace (Z.to_nat retries - a)%nat
    with (S (Z.to_nat retries - S a)) by lia.
  cbn [seq].
  rewrite (retry_loop_raised_step _ _ _ _ e); [|exact Hnet].
  cbn [posts trace]. rewrite <- app_assoc. cbn [app].
  replace (S (posts w + a)) with (posts w + S a)%nat by lia.
  reflexivity.
Qed.

(** X1: the call is decided by the first attempt that does not end in a
    request exception.  Either all [retries] attempts fail and the error
    placeholder comes back after [retries] posts, or the first attempt
    [a] that gets through ends the call after [a + 1] posts: with what
    lines 130-132 make of its body, or with the exception it raised.
    What the network would answer to later posts plays no part. *)
Theorem get_cookie_details_first_answer cookie_name retries w :
  (fails_next cookie_name w (Z.to_nat retries)
   /\ fst (get_cookie_details cookie_name retries w)
      = inr (error_result cookie_name retries)
   /\ posts (snd (get_cookie_details cookie_name retries w))
      = (posts w + Z.to_nat retries)%nat)
  \/ (exists a,
         (a < Z.to_nat retries)%nat
         /\ fails_next cookie_name w a
         /\ posts (snd (get_cookie_details cookie_name retries w))
            = (posts w + S a)%nat
         /\ ((exists response_data,
                 net (posts w + a) cookie_name = Responded response_data
                 /\ fst (get_cookie_details cookie_name retries w)
                    = payload_of response_data)
             \/ (exists e,
                    net (posts w + a) cookie_name = Raised e
                    /\ fst (get_cookie_details cookie_name retries w)
                       = inl e))).
Proof.
  destruct (positions_fail_or_not cookie_name w (Z.to_nat retries))
    as [Hall|[a [Ha [Hfail Hgood]]]].
  - left. split; [exact Hall|].
    rewrite get_cookie_details_unfold.
    rewrite (get_cookie_details_failed_prefix _ _ _ (Z.to_nat retries));
      [|lia|exact Hall].
    rewrite Nat.sub_diag. split; reflexivity.
  - right. exists a. split; [exact Ha|]. split; [exact Hfail|].
    destruct (net (posts w + a) cookie_name)
      as [status_code|response_data|e] eqn:Hnet; [discriminate| |].
    + rewrite (get_cookie_details_responded _ _ _ a response_data Ha Hfail Hnet).
      split; [reflexivity|]. left. exists response_data.
      split; [reflexivity|]. cbn [fst].
      rewrite answer_of_payload.
      destruct (payload_of response_data); reflexivity.
    + rewrite (get_cookie_details_raised _ _ _ a e Ha Hfail Hnet).
      split; [reflexivity|]. right. exists e. split; reflexivity.
Qed.

(** X2: whatever the network does, one call posts at most [retries]
    times (never, when [retries] is zero or negative), and everything it
    adds to the trace after its own entry mark is a post for its cookie
    or a pause. *)
Theorem get_cookie_details_posts_bound cookie_name retries w :
  (posts w <= posts (snd (get_cookie_details cookie_name retries w))
   <= posts w + Z.to_nat retries)%nat
  /\ exists tail,
      trace (snd (get_cookie_details cookie_name retries w))
      = (trace w ++ EvCall cookie_name :: tail)%list
      /\ Forall (fun ev => ev = EvPost cookie_name
                           \/ exists s, ev = EvSleep s) tail.
Proof.
  rewrite get_cookie_details_unfold.
  assert (Hbound := retry_loop_posts_bound cookie_name
                      (seq 0 (Z.to_nat retries)) (emit (EvCall cookie_name) w)).
  rewrite length_seq in Hbound. cbn [emit posts] in Hbound.
  assert (Hshape : forall attempts w0, exists tail,
             trace (snd (retry_loop cookie_name attempts w0))
             = (trace w0 ++ tail)%list
             /\ Forall (fun ev => ev = EvPost cookie_name
                                  \/ exists s, ev = EvSleep s) tail).
  { induction attempts as [|attempt rest IH]; intros w0.
    - exists []. cbn. rewrite app_nil_r. split; [reflexivity|constructor].
    - destruct (net (posts w0) cookie_name)
        as [status_code|response_data|e] eqn:Hnet.
      + rewrite (retry_loop_failed_step _ _ _ _ _ Hnet).
        destruct (IH (mkWorld (S (posts w0))
                    (trace w0 ++ [EvPost cookie_name;
                       EvSleep (sleep_after_failure attempt status_code)])))
          as [tail [Htail Hall]].
        rewrite Htail. cbn [trace]. rewrite <- app_assoc. cbn [app].
        eexists. split; [reflexivity|].
        constructor; [left; reflexivity|].
        constructor; [right; eauto|exact Hall].
      + rewrite (retry_loop_responded_step _ _ _ _ _ Hnet). cbn.
        eexists. split; [reflexivity|].
        constructor; [left; reflexivity|constructor].
      + rewrite (retry_loop_raised_step _ _ _ _ _ Hnet). cbn.
        eexists. split; [reflexivity|].
        constructor; [left; reflexivity|constructor]. }
  destruct (Hshape (seq 0 (Z.to_nat retries)) (emit (EvCall cookie_name) w))
    as [tail [Htail Hall]].
  destruct (retry_loop cookie_name (seq 0 (Z.to_nat retries))
              (emit (EvCall cookie_name) w)) as [[e|[v|]] w'];
    cbn [snd] in *; (split; [exact Hbound|]); exists tail;
    (split; [|exact Hall]); rewrite Htail; unfold emit; cbn [trace];
    rewrite <- app_assoc; reflexivity.
Qed.


Lemma total_sleep_app (t1 t2 : list event) :
  total_sleep (t1 ++ t2) = total_sleep t1 + total_sleep t2.
Proof.
  induction t1 as [|ev t1 IH]; [reflexivity|].
  cbn [app total_sleep fold_right]. fold (total_sleep (t1 ++ t2)).
  fold (total_sleep t1). rewrite IH. destruct ev; lia.
Qed.

Lemma failed_trace_sleep_backoff cookie_name n :
  forall start k,
    (forall i, (i < n)%nat ->
               is_429 (status_of (net (k + i) cookie_name)) = false) ->
    total_sleep (failed_trace cookie_name (seq start n) k)
    = 2 ^ Z.of_nat (start + n) - 2 ^ Z.of_nat start.
Proof.
  induction n as [|n IH]; intros start k Hno.
  - cbn. rewrite Nat.add_0_r. lia.
  - cbn [seq failed_trace total_sleep fold_right].
    fold (total_sleep (failed_trace cookie_name (seq (S start) n) (S k))).
    rewrite <- sleep_after_failure_code.
    assert (H0 := Hno 0%nat). rewrite Nat.add_0_r in H0.
    rewrite H0 by lia.
    rewrite IH.
    + replace (Z.of_nat (S start + n)) with (Z.of_nat (start + S n)) by lia.
      replace (Z.of_nat (S start)) with (Z.succ (Z.of_nat start)) by lia.
      rewrite Z.pow_succ_r by lia. lia.
    + intros i Hi. replace (S k + i)%nat with (k + S i)%nat by lia.
      apply Hno. lia.
Qed.

Lemma failed_trace_sleep_429 cookie_name n :
  forall start k,
    (forall i, (i < n)%nat ->
               is_429 (status_of (net (k + i) cookie_name)) = true) ->
    total_sleep (failed_trace cookie_name (seq start n) k) = 60 * Z.of_nat n.
Proof.
  induction n as [|n IH]; intros start k Hall.
  - reflexivity.
  - cbn [seq failed_trace total_sleep fold_right].
    fold (total_sleep (failed_trace cookie_name (seq (S start) n) (S k))).
    rewrite <- sleep_after_failure_code.
    assert (H0 := Hall 0%nat). rewrite Nat.add_0_r in H0.
    rewrite H0 by lia.
    rewrite IH.
    + lia.
    + intros i Hi. replace (S k + i)%nat with (k + S i)%nat by lia.
      apply Hall. lia.
Qed.

(** X3: the time one call spends waiting when all of its [r] attempts
    fail: [2^r - 1] seconds when no failure carries status 429 (the
    pauses 1, 2, 4, ... add up, the last one is made although no attempt
    follows it), and [60 * r] seconds when all of them do. *)
Theorem get_cookie_details_total_backoff cookie_name retries w :
  let r := Z.to_nat retries in
  let w' := snd (get_cookie_details cookie_name retries w) in
  fails_next cookie_name w r ->
  ((forall i, (i < r)%nat ->
              is_429 (status_of (net (posts w + i) cookie_name)) = false) ->
   total_sleep (trace w') = total_sleep (trace w) + 2 ^ Z.of_nat r - 1)
  /\ ((forall i, (i < r)%nat ->
                 is_429 (status_of (net (posts w + i) cookie_name)) = true) ->
      total_sleep (trace w') = total_sleep (trace w) + 60 * Z.of_nat r).
Proof.
  intros r w' Hfail.
  assert (Htrace : trace w'
                   = (trace w ++ EvCall cookie_name
                        :: failed_trace cookie_name (seq 0 r) (posts w))%list).
  { subst w'. rewrite get_cookie_details_unfold.
    rewrite (get_cookie_details_failed_prefix _ _ _ r); [|lia|exact Hfail].
    fold r. rewrite Nat.sub_diag. reflexivity. }
  rewrite Htrace, total_sleep_app.
  cbn [total_sleep fold_right].
  fold (total_sleep (failed_trace cookie_name (seq 0 r) (posts w))).
  split; intros Hstatus.
  - rewrite failed_trace_sleep_backoff by exact Hstatus. cbn. lia.
  - rewrite failed_trace_sleep_429 by exact Hstatus. lia.
Qed.

Lemma record_rows_of_call n d w :
  record_rows n d w
  = match get_cookie_details n (MAX_RETRIES sliders) (emit (EvSleep 1) w) with
    | (inr api_details, w') =>
        (match reconcile n d api_details with
         | inr rows => rows
         | inl e => [processing_error n d e]
         end, w')
    | (inl e, w') => ([processing_error n d e], w')
    end.
Proof.
  unfold record_rows. rewrite try_body_unfold.
  destruct (get_cookie_details _ _ _) as [[e|v] w']; [reflexivity|].
  destruct (reconcile n d v); reflexivity.
Qed.

(** X4: the path on which everything works.  When the first attempt that
    gets through brings a body whose first candidate holds a payload text
    that [json.loads] accepts, the client returns the parsed value after
    that post, and the row appended for the record is the reconciliation
    of that value with the record's domain category (or a "Processing
    Error" row if the value has no [get]). *)
Theorem parsed_payload_is_reconciled n d w a response_data c text v :
  (a < Z.to_nat (MAX_RETRIES sliders))%nat ->
  fails_next n w a ->
  net (posts w + a) n = Responded response_data ->
  candidates_test response_data = inr c ->
  truthy c = true ->
  candidate_text response_data = inr (PStr text) ->
  json_loads text = inr v ->
  fst (get_cookie_details n (MAX_RETRIES sliders) w) = inr v
  /\ posts (snd (get_cookie_details n (MAX_RETRIES sliders) w))
     = (posts w + S a)%nat
  /\ fst (process_record n d w)
     = inr (match reconcile n d v with
            | inr rows => rows
            | inl e => [mkResult n d (PStr "Processing Error")
                                 (PStr (str_exn e))]
            end).
Proof.
  intros Ha Hfail Hnet Htest Htruthy Htext Hparse.
  assert (Hanswer : answer_of response_data = inr (Some v)).
  { unfold answer_of. rewrite Htest. cbn [bindE]. rewrite Htruthy, Htext.
    cbn [bindE py_json_loads]. rewrite Hparse. reflexivity. }
  assert (Hgen : forall w0, posts w0 = posts w ->
    get_cookie_details n (MAX_RETRIES sliders) w0
    = (inr v,
       mkWorld (posts w0 + S a)
         (trace w0 ++ EvCall n :: failed_trace n (seq 0 a) (posts w0)
            ++ [EvPost n]))).
  { intros w0 Hposts.
    rewrite (get_cookie_details_responded _ _ _ a response_data).
    - rewrite Hanswer. reflexivity.
    - exact Ha.
    - unfold fails_next. rewrite Hposts. exact Hfail.
    - rewrite Hposts. exact Hnet. }
  rewrite (Hgen w eq_refl). split; [reflexivity|]. split; [reflexivity|].
  rewrite process_record_rows, record_rows_of_call.
  rewrite (Hgen (emit (EvSleep 1) w) eq_refl). reflexivity.
Qed.

(** X5: an exception of lines 127-129 that is not a request exception is
    not retried either: it leaves the client after that post and the
    record gets a "Processing Error" row with its text. *)
Theorem other_exception_not_retried n d w a e :
  (a < Z.to_nat (MAX_RETRIES sliders))%nat ->
  fails_next n w a ->
  net (posts w + a) n = Raised e ->
  fst (get_cookie_details n (MAX_RETRIES sliders) w) = inl e
  /\ fst (process_record n d w)
     = inr [mkResult n d (PStr "Processing Error") (PStr (str_exn e))]
  /\ posts (snd (process_record n d w)) = (posts w + S a)%nat.
Proof.
  intros Ha Hfail Hnet.
  split.
  - rewrite (get_cookie_details_raised _ _ _ a e Ha Hfail Hnet). reflexivity.
  - rewrite process_record_rows, record_rows_of_call.
    rewrite (get_cookie_details_raised _ _ (emit (EvSleep 1) w) a e Ha);
      [split; reflexivity|exact Hfail|exact Hnet].
Qed.


(** *** Further properties of the batch loop *)

Lemma subseq_length {A : Type} (l1 l2 : list A) :
  subseq l1 l2 -> (List.length l1 <= List.length l2)%nat.
Proof. induction 1; cbn; lia. Qed.

Lemma subseq_app {A : Type} (l1 l2 l3 l4 : list A) :
  subseq l1 l2 -> subseq l3 l4 -> subseq (l1 ++ l3) (l2 ++ l4).
Proof.
  induction 1; intros H34; cbn.
  - exact H34.
  - apply subseq_skip. auto.
  - apply subseq_keep. auto.
Qed.

Lemma record_rows_keys n d w :
  subseq (map result_key (fst (record_rows n d w))) [(n, d)].
Proof.
  destruct (record_rows_shape n d w) as [H|[c [j H]]]; rewrite H; cbn.
  - apply subseq_skip, subseq_nil.
  - apply subseq_keep, subseq_nil.
Qed.

Lemma loop_rows_subseq total_cookies cookie_records :
  forall index w,
    subseq (map result_key
              (fst (loop_rows total_cookies index cookie_records w)))
           cookie_records.
Proof.
  induction cookie_records as [|[n d] rest IH]; intros index w.
  - apply subseq_nil.
  - cbn [loop_rows].
    assert (Hrec := record_rows_keys n d w).
    destruct (record_rows n d w) as [rows w1]. cbn [fst] in Hrec.
    specialize (IH (S index) (snd (chunk_pause index total_cookies w1))).
    destruct (loop_rows total_cookies (S index) rest _) as [more w3].
    cbn [fst] in *. rewrite map_app.
    apply (subseq_app _ [(n, d)] _ rest Hrec IH).
Qed.

(** X6: the batch never raises, whatever the network answers and
    whatever the parser makes of it.  It returns at most one row per
    record, and the cookie names and domain categories of its rows are
    those of the records, in the order of the records, with the dropped
    records left out. *)
Theorem process_dataframe_returns df w :
  exists rows w',
    process_dataframe df w = (inr rows, w')
    /\ subseq (map result_key rows) df
    /\ (List.length rows <= List.length df)%nat.
Proof.
  exists (fst (loop_rows (List.length df) 0 df w)),
         (snd (loop_rows (List.length df) 0 df w)).
  split; [apply process_loop_rows|].
  assert (Hsub := loop_rows_subseq (List.length df) df 0%nat w).
  split; [exact Hsub|].
  apply subseq_length in Hsub. rewrite length_map in Hsub. exact Hsub.
Qed.

Lemma get_cookie_details_posts_le cookie_name retries w :
  (posts w <= posts (snd (get_cookie_details cookie_name retries w))
   <= posts w + Z.to_nat retries)%nat.
Proof.
  rewrite get_cookie_details_unfold.
  assert (Hbound := retry_loop_posts_bound cookie_name
                      (seq 0 (Z.to_nat retries)) (emit (EvCall cookie_name) w)).
  rewrite length_seq in Hbound. cbn [emit posts] in Hbound.
  destruct (retry_loop _ _ _) as [[e|[v|]] w']; exact Hbound.
Qed.

Lemma record_rows_posts n d w :
  (posts w <= posts (snd (record_rows n d w))
   <= posts w + Z.to_nat (MAX_RETRIES sliders))%nat.
Proof.
  rewrite record_rows_of_call.
  assert (H := get_cookie_details_posts_le n (MAX_RETRIES sliders)
                 (emit (EvSleep 1) w)).
  cbn [emit posts] in H.
  destruct (get_cookie_details _ _ _) as [[e|v] w']; exact H.
Qed.

Lemma chunk_pause_posts index total_cookies w :
  posts (snd (chunk_pause index total_cookies w)) = posts w.
Proof. unfold chunk_pause. destruct (_ && _); reflexivity. Qed.

Lemma loop_rows_posts total_cookies cookie_records :
  forall index w,
    (posts w <= posts (snd (loop_rows total_cookies index cookie_records w))
     <= posts w + List.length cookie_records
                  * Z.to_nat (MAX_RETRIES sliders))%nat.
Proof.
  induction cookie_records as [|[n d] rest IH]; intros index w.
  - cbn. lia.
  - cbn [loop_rows List.length].
    assert (Hrec := record_rows_posts n d w).
    destruct (record_rows n d w) as [rows w1]. cbn [snd] in Hrec.
    specialize (IH (S index) (snd (chunk_pause index total_cookies w1))).
    rewrite chunk_pause_posts in IH.
    destruct (loop_rows total_cookies (S index) rest _) as [more w3].
    cbn [snd] in *. lia.
Qed.

(** X7: over a whole batch the client is entered exactly once per
    record, in the order of the records, for any network; and the batch
    sends at most [MAX_RETRIES] posts per record. *)
Theorem process_dataframe_calls_and_posts df w :
  let w' := snd (process_dataframe df w) in
  calls_of (trace w') = (calls_of (trace w) ++ map fst df)%list
  /\ (posts w <= posts w'
      <= posts w + List.length df * Z.to_nat (MAX_RETRIES sliders))%nat.
Proof.
  unfold process_dataframe. rewrite process_loop_rows. cbn [snd].
  split; [apply loop_rows_calls|apply loop_rows_posts].
Qed.


Lemma sleep_after_failure_nonneg attempt status_code :
  0 <= sleep_after_failure attempt status_code.
Proof.
  rewrite <- sleep_after_failure_code.
  destruct (is_429 status_code); [lia|].
  apply Z.pow_nonneg. lia.
Qed.

(** The seconds a call adds are those of its back-off: none when no post
    fails. *)
Lemma retry_loop_sleep cookie_name attempts :
  forall w, exists backoff,
    0 <= backoff
    /\ total_sleep (trace (snd (retry_loop cookie_name attempts w)))
       = total_sleep (trace w) + backoff
    /\ (never_fails -> backoff = 0).
Proof.
  induction attempts as [|attempt rest IH]; intros w.
  - exists 0. cbn. repeat split; lia.
  - destruct (net (posts w) cookie_name)
      as [status_code|response_data|e] eqn:Hnet.
    + rewrite (retry_loop_failed_step _ _ _ _ _ Hnet).
      destruct (IH (mkWorld (S (posts w))
                  (trace w ++ [EvPost cookie_name;
                     EvSleep (sleep_after_failure attempt status_code)])))
        as [b [Hb [Heq _]]].
      exists (sleep_after_failure attempt status_code + b).
      assert (H0 := sleep_after_failure_nonneg attempt status_code).
      split; [lia|]. split.
      * rewrite Heq. cbn [trace]. rewrite total_sleep_app. cbn. lia.
      * intros Hnf. specialize (Hnf (posts w) cookie_name).
        rewrite Hnet in Hnf. discriminate.
    + rewrite (retry_loop_responded_step _ _ _ _ _ Hnet).
      exists 0. cbn [snd trace]. rewrite total_sleep_app. cbn.
      repeat split; lia.
    + rewrite (retry_loop_raised_step _ _ _ _ _ Hnet).
      exists 0. cbn [snd trace]. rewrite total_sleep_app. cbn.
      repeat split; lia.
Qed.

Lemma record_rows_sleep n d w :
  exists backoff,
    0 <= backoff
    /\ total_sleep (trace (snd (record_rows n d w)))
       = total_sleep (trace w) + 1 + backoff
    /\ (never_fails -> backoff = 0).
Proof.
  rewrite record_rows_of_call, get_cookie_details_unfold.
  destruct (retry_loop_sleep n (seq 0 (Z.to_nat (MAX_RETRIES sliders)))
              (emit (EvCall n) (emit (EvSleep 1) w)))
    as [b [Hb [Heq Hnf]]].
  exists b. split; [exact Hb|]. split; [|exact Hnf].
  unfold emit in Heq. cbn [trace posts] in Heq.
  rewrite !total_sleep_app in Heq. cbn in Heq.
  unfold emit. cbn [trace posts].
  destruct (retry_loop _ _ _) as [[e|[v|]] w']; cbn [snd] in *; lia.
Qed.

Lemma div_succ_step (i c : Z) :
  0 <= i -> 0 < c ->
  (i + 1) / c = i / c + (if (i + 1) mod c =? 0 then 1 else 0).
Proof.
  intros Hi Hc.
  assert (Hdm := Z.div_mod (i + 1) c ltac:(lia)).
  assert (Hbound := Z.mod_pos_bound (i + 1) c Hc).
  destruct (Z.eqb_spec ((i + 1) mod c) 0) as [Hz|Hnz].
  - assert (Hq : i / c = (i + 1) / c - 1).
    { symmetry. apply (Z.div_unique i c _ (c - 1)); lia. }
    lia.
  - assert (Hq : i / c = (i + 1) / c).
    { symmetry. apply (Z.div_unique i c _ ((i + 1) mod c - 1)); lia. }
    lia.
Qed.

Lemma chunk_pause_sleep index total_cookies w :
  total_sleep (trace (snd (chunk_pause index total_cookies w)))
  = total_sleep (trace w)
    + (if ((Z.of_nat index + 1) mod Z.pos (CHUNK_SIZE_PAUSE sliders) =? 0)
          && (Z.of_nat index + 1 <? Z.of_nat total_cookies)
       then Z.pos (PAUSE_DURATION sliders) else 0).
Proof.
  unfold chunk_pause. destruct (_ && _).
  - cbn. rewrite total_sleep_app. cbn. lia.
  - cbn. lia.
Qed.

Lemma loop_rows_sleep cookie_records :
  forall index w,
    cookie_records <> [] ->
    let total := (index + List.length cookie_records)%nat in
    exists backoff,
      0 <= backoff
      /\ total_sleep (trace (snd (loop_rows total index cookie_records w)))
         = total_sleep (trace w) + Z.of_nat (List.length cookie_records)
           + Z.pos (PAUSE_DURATION sliders)
             * ((Z.of_nat total - 1) / Z.pos (CHUNK_SIZE_PAUSE sliders)
                - Z.of_nat index / Z.pos (CHUNK_SIZE_PAUSE sliders))
           + backoff
      /\ (never_fails -> backoff = 0).
Proof.
  induction cookie_records as [|[n d] rest IH]; intros index w Hne total;
    [contradiction|].
  cbn [loop_rows].
  destruct (record_rows_sleep n d w) as [b1 [Hb1 [Hs1 Hnf1]]].
  destruct (record_rows n d w) as [rows w1]. cbn [snd] in Hs1.
  assert (Hp := chunk_pause_sleep index total w1).
  set (w2 := snd (chunk_pause index total w1)) in *.
  destruct rest as [|r rest'].
  - cbn [loop_rows snd]. exists b1. split; [exact Hb1|]. split; [|exact Hnf1].
    rewrite Hp, Hs1. subst total. cbn [List.length].
    replace (Z.of_nat index + 1 <? Z.of_nat (index + 1)) with false
      by (symmetry; apply Z.ltb_ge; lia).
    rewrite andb_false_r.
    replace (Z.of_nat (index + 1) - 1) with (Z.of_nat index) by lia.
    lia.
  - assert (Hne' : r :: rest' <> []) by discriminate.
    destruct (IH (S index) w2 Hne') as [b2 [Hb2 [Hs2 Hnf2]]].
    replace (S index + List.length (r :: rest'))%nat with total in Hs2
      by (subst total; cbn [List.length]; lia).
    destruct (loop_rows total (S index) (r :: rest') w2) as [more w3].
    cbn [snd] in *. exists (b1 + b2). split; [lia|]. split.
    + rewrite Hs2, Hp, Hs1.
      replace (Z.of_nat index + 1 <? Z.of_nat total) with true
        by (symmetry; apply Z.ltb_lt; subst total; cbn [List.length]; lia).
      rewrite andb_true_r.
      replace (Z.of_nat (S index)) with (Z.of_nat index + 1) by lia.
      rewrite (div_succ_step (Z.of_nat index)
                 (Z.pos (CHUNK_SIZE_PAUSE sliders))) by lia.
      cbn [List.length].
      destruct ((Z.of_nat index + 1) mod Z.pos (CHUNK_SIZE_PAUSE sliders) =? 0);
        lia.
    + intros Hnf. rewrite (Hnf1 Hnf), (Hnf2 Hnf). reflexivity.
Qed.

(** X8: the time a batch of [n >= 1] records spends waiting is the
    second before each call, plus one block pause for each full chunk of
    records that is followed by another record, plus the back-off of the
    client; the back-off is zero when no post fails.  No block pause is
    made after the last record. *)
Theorem process_dataframe_pacing df w :
  df <> [] ->
  let n := Z.of_nat (List.length df) in
  exists backoff,
    0 <= backoff
    /\ total_sleep (trace (snd (process_dataframe df w)))
       = total_sleep (trace w) + n
         + Z.pos (PAUSE_DURATION sliders)
           * ((n - 1) / Z.pos (CHUNK_SIZE_PAUSE sliders))
         + backoff
    /\ (never_fails -> backoff = 0).
Proof.
  intros Hne n.
  destruct (loop_rows_sleep df 0%nat w Hne) as [b [Hb [Hs Hnf]]].
  cbn [Nat.add] in Hs.
  exists b. split; [exact Hb|]. split; [|exact Hnf].
  unfold process_dataframe. rewrite process_loop_rows. cbn [snd].
  rewrite Hs. cbn [Z.of_nat]. rewrite Z.div_0_l by lia. subst n. lia.
Qed.


(** *** Further properties of the reconciliation *)

Lemma has_slash_joined (D s : string) : has_slash (D ++ "/" ++ s) = true.
Proof.
  induction D as [|c D IH]; cbn in *.
  - reflexivity.
  - rewrite IH. apply orb_true_r.
Qed.

Lemma py_eq_str_true (v : pyval) (s : string) :
  py_eq_str v s = true -> v = PStr s.
Proof.
  destruct v; cbn; try discriminate.
  intros H. apply String.eqb_eq in H. subst. reflexivity.
Qed.

Lemma py_eq_str_false (s t : string) :
  py_eq_str (PStr s) t = false -> s <> t.
Proof. cbn. intros H. apply String.eqb_neq. exact H. Qed.

(** X9: a record ends with final category "Unknown" only when both the
    recommended category and the domain category are "Unknown", and then
    its justification asks for the client's confirmation. *)
Theorem final_unknown_only_if_both cookie_name D api_details rows r :
  reconcile cookie_name D api_details = inr rows ->
  In r rows ->
  Recommended_Category r = PStr "Unknown" ->
  D = "Unknown"
  /\ py_get api_details "recommendedCategory" (PStr "Unknown")
     = inr (PStr "Unknown")
  /\ Justification r = PStr "Need confirmation from Client".
Proof.
  unfold reconcile. destruct (truthy api_details).
  - destruct (py_get api_details "recommendedCategory" _) as [e|G];
      cbn [bindE]; [discriminate|].
    destruct (py_get api_details "justification" _) as [e|J];
      cbn [bindE]; [discriminate|].
    intros Hrows Hin Hcat. injection Hrows as <-.
    destruct Hin as [<-|[]]. cbn [Recommended_Category Justification] in *.
    unfold merge_categories in *.
    destruct (py_eq_str G D) eqn:HGD.
    + apply py_eq_str_true in HGD. subst G.
      destruct (py_eq_str (PStr D) "Unknown") eqn:HU; cbn [fst snd] in *.
      * apply py_eq_str_true in HU. injection HU as ->. repeat split.
      * apply py_eq_str_false in HU. congruence.
    + destruct (py_eq_str G "Unknown") eqn:HU; cbn [fst snd] in *.
      * apply py_eq_str_true in HU. subst G. apply py_eq_str_false in HGD.
        congruence.
      * destruct (negb (D =? "Unknown")%string); cbn [fst snd] in *.
        -- injection Hcat as Hcat.
           assert (Hs : has_slash "Unknown" = true)
             by (rewrite <- Hcat; exact (has_slash_joined D (py_str G))).
           discriminate.
        -- subst G. discriminate.
  - intros Hrows Hin. injection Hrows as <-. destruct Hin.
Qed.

(** X10: an answer that is a non-empty dict without a
    [recommendedCategory] entry counts as "Unknown": the record keeps its
    domain category, with justification "N/A", or the request for
    confirmation when the domain category is "Unknown" too; the answer's
    own justification is not used. *)
Theorem missing_category_keeps_domain cookie_name D items :
  items <> [] ->
  dict_lookup "recommendedCategory" items = None ->
  reconcile cookie_name D (PDict items)
  = inr [mkResult cookie_name D (PStr D)
           (PStr (if (D =? "Unknown")%string
                  then "Need confirmation from Client" else "N/A"))].
Proof.
  intros Hne Hmiss.
  unfold reconcile.
  assert (Htruthy : truthy (PDict items) = true)
    by (destruct items; [contradiction|reflexivity]).
  rewrite Htruthy. unfold py_get. rewrite Hmiss. cbn [bindE].
  unfold merge_categories, py_eq_str.
  rewrite (String.eqb_sym "Unknown" D).
  destruct (String.eqb_spec D "Unknown") as [->|HD]; reflexivity.
Qed.

Lemma process_record_of_payload n d w a response_data v :
  (a < Z.to_nat (MAX_RETRIES sliders))%nat ->
  fails_next n w a ->
  net (posts w + a) n = Responded response_data ->
  payload_of response_data = inr v ->
  fst (process_record n d w)
  = inr (match reconcile n d v with
         | inr rows => rows
         | inl e => [processing_error n d e]
         end).
Proof.
  intros Ha Hfail Hnet Hpay.
  rewrite process_record_rows, record_rows_of_call.
  rewrite (get_cookie_details_responded _ _ (emit (EvSleep 1) w) a
             response_data Ha); [|exact Hfail|exact Hnet].
  rewrite answer_of_payload, Hpay. reflexivity.
Qed.

(** X11: what the client hands over decides the fate of the record by
    its truth value and its type.  A falsy value ([None], [{}], [[]],
    [0], [""], [false]) is dropped without a row, like a body without
    candidates; a truthy value that is not a dict has no [get] and gives
    a "Processing Error" row naming its type. *)
Theorem payload_shape_decides n d w a response_data v :
  (a < Z.to_nat (MAX_RETRIES sliders))%nat ->
  fails_next n w a ->
  net (posts w + a) n = Responded response_data ->
  payload_of response_data = inr v ->
  (truthy v = false -> fst (process_record n d w) = inr [])
  /\ (truthy v = true -> (forall items, v <> PDict items) ->
      fst (process_record n d w)
      = inr [mkResult n d (PStr "Processing Error")
               (PStr ("'" ++ type_name v
                        ++ "' object has no attribute 'get'"))]).
Proof.
  intros Ha Hfail Hnet Hpay.
  rewrite (process_record_of_payload n d w a response_data v Ha Hfail Hnet Hpay).
  unfold reconcile. split.
  - intros ->. reflexivity.
  - intros -> Hnodict.
    destruct v; try reflexivity.
    exfalso. apply (Hnodict items). reflexivity.
Qed.


(** *** Further properties of the deduplication and the duplicate report *)

Lemma subseq_refl {A : Type} (l : list A) : subseq l l.
Proof. induction l; constructor; assumption. Qed.

Lemma subseq_same_length {A : Type} (l1 l2 : list A) :
  subseq l1 l2 -> List.length l1 = List.length l2 -> l1 = l2.
Proof.
  induction 1 as [|x l1 l2 Hsub IH|x l1 l2 Hsub IH]; cbn; intros Hlen.
  - reflexivity.
  - apply subseq_length in Hsub. lia.
  - f_equal. apply IH. lia.
Qed.

Lemma drop_duplicates_from_subseq (df : table) :
  forall seen, subseq (drop_duplicates_from seen df) df.
Proof.
  induction df as [|[n d] rest IH]; intros seen; cbn.
  - constructor.
  - destruct (name_in n seen); [apply subseq_skip|apply subseq_keep]; apply IH.
Qed.

Lemma drop_duplicates_from_id (df : table) :
  forall seen,
    NoDup (map fst df) ->
    (forall n, In n (map fst df) -> ~ In n seen) ->
    drop_duplicates_from seen df = df.
Proof.
  induction df as [|[n d] rest IH]; intros seen Hnd Hdisj; [reflexivity|].
  cbn [map fst] in Hnd. inversion Hnd as [|? ? Hnotin Hrest]; subst.
  cbn [drop_duplicates_from].
  assert (Hseen : name_in n seen = false).
  { apply name_in_not_In. apply Hdisj. left. reflexivity. }
  rewrite Hseen. f_equal. apply IH; [exact Hrest|].
  intros m Hm [<-|Hin]; [contradiction|].
  apply (Hdisj m); [right; exact Hm|exact Hin].
Qed.

(** X12: [drop_duplicates] keeps, for every cookie name of the table,
    exactly its first row: the result has each name once, is the table
    with rows left out and the order kept, and the first row of any name
    is the same before and after. *)
Theorem drop_duplicates_keeps_first_rows (df : table) :
  NoDup (map fst (drop_duplicates df))
  /\ subseq (drop_duplicates df) df
  /\ forall n, first_row n (drop_duplicates df) = first_row n df.
Proof.
  unfold drop_duplicates. split; [apply drop_duplicates_from_NoDup|].
  split; [apply drop_duplicates_from_subseq|].
  intros n. apply drop_duplicates_from_first. intros [].
Qed.

(** X13: [drop_duplicates] changes nothing exactly when no cookie name
    occurs twice, and applying it a second time changes nothing. *)
Theorem drop_duplicates_fixpoint (df : table) :
  (drop_duplicates df = df <-> NoDup (map fst df))
  /\ drop_duplicates (drop_duplicates df) = drop_duplicates df.
Proof.
  assert (Hid : forall t, NoDup (map fst t) -> drop_duplicates t = t).
  { intros t Hnd. apply drop_duplicates_from_id; [exact Hnd|].
    intros n _ []. }
  split.
  - split.
    + intros Heq. rewrite <- Heq. apply drop_duplicates_from_NoDup.
    + apply Hid.
  - apply Hid. apply drop_duplicates_from_NoDup.
Qed.

Lemma select_mask_map {A : Type} (f : A -> bool) (rows : list A) :
  select_mask (map f rows) rows = filter f rows.
Proof.
  unfold select_mask. induction rows as [|r rows IH]; [reflexivity|].
  cbn. destruct (f r); cbn; rewrite IH; reflexivity.
Qed.

Lemma duplicate_cookies_filter (df : table) :
  duplicate_cookies df
  = filter (fun r => (1 <? count_name (fst r) df)%nat) df.
Proof. apply select_mask_map. Qed.

Lemma count_name_count_occ (n : string) (df : table) :
  count_name n df = count_occ string_dec (map fst df) n.
Proof.
  unfold count_name. induction df as [|[m d] rest IH]; [reflexivity|].
  cbn [filter map fst].
  destruct (String.eqb_spec m n) as [->|Hne].
  - rewrite count_occ_cons_eq by reflexivity.
    cbn [List.length]. rewrite IH. reflexivity.
  - rewrite count_occ_cons_neq by exact Hne. exact IH.
Qed.

Lemma filter_empty_iff {A : Type} (f : A -> bool) (l : list A) :
  filter f l = [] <-> forall x, In x l -> f x = false.
Proof.
  induction l as [|a l IH]; cbn.
  - split; [intros _ x []|reflexivity].
  - destruct (f a) eqn:Hfa.
    + split; [discriminate|]. intros H. specialize (H a (or_introl eq_refl)).
      congruence.
    + rewrite IH. split.
      * intros H x [<-|Hx]; [exact Hfa|apply H; exact Hx].
      * intros H x Hx. apply H. right. exact Hx.
Qed.

Lemma duplicate_cookies_empty_iff (df : table) :
  duplicate_cookies df = [] <-> NoDup (map fst df).
Proof.
  rewrite duplicate_cookies_filter. split.
  - intros Hnil. apply (NoDup_count_occ string_dec). intros n.
    assert (H := proj1 (filter_empty_iff _ _) Hnil).
    destruct (in_dec string_dec n (map fst df)) as [Hin|Hnot].
    + apply in_map_iff in Hin. destruct Hin as [r [<- Hr]].
      specialize (H r Hr). apply Nat.ltb_ge in H.
      rewrite count_name_count_occ in H. exact H.
    + apply (count_occ_not_In string_dec) in Hnot. lia.
  - intros Hnd. apply filter_empty_iff. intros r _.
    apply Nat.ltb_ge. rewrite count_name_count_occ.
    apply (proj1 (NoDup_count_occ string_dec _) Hnd).
Qed.

Lemma filter_name_of_duplicates (n : string) (df l : table) :
  (1 < count_name n df)%nat ->
  filter (fun r => (fst r =? n)%string)
         (filter (fun r => (1 <? count_name (fst r) df)%nat) l)
  = filter (fun r => (fst r =? n)%string) l.
Proof.
  intros Hdup. induction l as [|r l IH]; [reflexivity|].
  cbn [filter].
  destruct (String.eqb_spec (fst r) n) as [Heq|Hne].
  - rewrite Heq. apply Nat.ltb_lt in Hdup. rewrite Hdup.
    cbn [filter]. rewrite Heq, String.eqb_refl, IH. reflexivity.
  - destruct (1 <? count_name (fst r) df)%nat; [cbn [filter]|]; 
      try (destruct (String.eqb_spec (fst r) n); [contradiction|]);
      exact IH.
Qed.

(** X14: the duplicate report.  It is empty exactly when deduplication
    removes no row; otherwise deduplication removes at least one row and
    the report lists at least two rows, never a single one. *)
Theorem duplicate_report_consistent (input_df : table) :
  (duplicate_cookies input_df = [] <-> drop_duplicates input_df = input_df)
  /\ (duplicate_cookies input_df <> []
      <-> (List.length (drop_duplicates input_df) < List.length input_df)%nat)
  /\ List.length (duplicate_cookies input_df) <> 1%nat.
Proof.
  assert (Hiff : duplicate_cookies input_df = []
                 <-> drop_duplicates input_df = input_df).
  { rewrite duplicate_cookies_empty_iff. split.
    - intros Hnd. apply drop_duplicates_from_id; [exact Hnd|]. intros n _ [].
    - intros Heq. rewrite <- Heq. apply drop_duplicates_from_NoDup. }
  assert (Hsub := drop_duplicates_from_subseq input_df []).
  fold (drop_duplicates input_df) in Hsub.
  split; [exact Hiff|]. split.
  - rewrite Hiff. split.
    + intros Hne.
      assert (Hle := subseq_length _ _ Hsub).
      destruct (Nat.eq_dec (List.length (drop_duplicates input_df))
                           (List.length input_df)) as [Heq|Hneq]; [|lia].
      exfalso. apply Hne. apply subseq_same_length; assumption.
    + intros Hlt Heq. rewrite Heq in Hlt. lia.
  - intros Hone.
    destruct (duplicate_cookies input_df) as [|r [|r' l]] eqn:Hdups;
      try discriminate.
    assert (Hin : In r (duplicate_cookies input_df))
      by (rewrite Hdups; left; reflexivity).
    rewrite duplicate_cookies_filter in Hin. apply filter_In in Hin.
    destruct Hin as [_ Hcount]. apply Nat.ltb_lt in Hcount.
    assert (Hfilter := filter_name_of_duplicates (fst r) input_df input_df Hcount).
    rewrite <- duplicate_cookies_filter, Hdups in Hfilter.
    apply (f_equal (@List.length _)) in Hfilter.
    fold (count_name (fst r) input_df) in Hfilter.
    cbn in Hfilter. destruct (fst r =? fst r)%string; cbn in Hfilter; lia.
Qed.


(** *** Further properties of the whole analysis *)

Lemma join_rows_keys right (input_df : table) :
  map output_key (map (join_row right) input_df) = input_df.
Proof.
  induction input_df as [|[n d] rest IH]; [reflexivity|].
  cbn [map]. rewrite IH. reflexivity.
Qed.

(** X15: the analysis ends in one of two ways.  When the batch appended
    no row, selecting the result columns raises [KeyError] and there is
    no output table.  Otherwise there is one, and its Cookie Name and
    Domain Category columns are the input table: same rows, same order,
    each row with its own domain category. *)
Theorem analyse_output_or_key_error input_df w :
  exists rows,
    fst (process_dataframe (drop_duplicates input_df) w) = inr rows
    /\ (rows = [] ->
        fst (analyse input_df w) = inl (KeyError result_columns_msg))
    /\ (rows <> [] ->
        exists out,
          fst (analyse input_df w) = inr out
          /\ map output_key out = input_df
          /\ List.length out = List.length input_df).
Proof.
  exists (fst (unique_rows input_df w)).
  split; [rewrite process_dataframe_rows; reflexivity|]. split.
  - intros Hnil. rewrite analyse_unfold, Hnil. reflexivity.
  - intros Hne. eexists. split; [apply (analyse_output _ _ Hne)|].
    split; [apply join_rows_keys|].
    rewrite length_map. reflexivity.
Qed.

Lemma NoDup_app_parts {A : Type} (l1 l2 : list A) (a : A) :
  NoDup (l1 ++ a :: l2) ->
  NoDup l1 /\ NoDup l2 /\ ~ In a l1 /\ ~ In a l2.
Proof.
  intros H. apply NoDup_remove in H. destruct H as [Hnd Hnot].
  split; [apply (NoDup_app_remove_r _ _ Hnd)|].
  split; [apply (NoDup_app_remove_l _ _ Hnd)|].
  split; intros Hin; apply Hnot; apply in_or_app; [left|right]; exact Hin.
Qed.

Lemma loop_rows_filter_absent total_cookies cookie_records x index w :
  NoDup (map fst cookie_records) ->
  ~ In x (map fst cookie_records) ->
  filter (named x) (fst (loop_rows total_cookies index cookie_records w)) = [].
Proof.
  intros Hnd Hnot.
  destruct (loop_rows_filter total_cookies cookie_records x Hnd index w)
    as [[_ Hnil]|[d [wx [Hin _]]]]; [exact Hnil|].
  exfalso. apply Hnot. apply (in_map fst) in Hin. exact Hin.
Qed.

(** The rows named [x] of a run are those of the pass over the record
    named [x], made in the world the records before it leave behind. *)
Lemma loop_rows_filter_at total_cookies before x d after index w :
  NoDup (map fst (before ++ (x, d) :: after)) ->
  filter (named x)
         (fst (loop_rows total_cookies index (before ++ (x, d) :: after)%list w))
  = fst (record_rows x d (snd (loop_rows total_cookies index before w))).
Proof.
  intros Hnd. rewrite map_app in Hnd. cbn [map fst] in Hnd.
  apply NoDup_app_parts in Hnd.
  destruct Hnd as [Hnd1 [Hnd2 [Hnot1 Hnot2]]].
  rewrite loop_rows_app.
  assert (H1 := loop_rows_filter_absent total_cookies before x index w
                  Hnd1 Hnot1).
  destruct (loop_rows total_cookies index before w) as [rows1 w1].
  cbn [fst snd] in *. cbn [loop_rows].
  assert (Hsame := record_rows_filter_same x d w1).
  destruct (record_rows x d w1) as [rows w2]. cbn [fst] in *.
  assert (H2 := loop_rows_filter_absent total_cookies after x
                  (S (index + List.length before))
                  (snd (chunk_pause (index + List.length before)
                          total_cookies w2)) Hnd2 Hnot2).
  destruct (loop_rows total_cookies (S (index + List.length before)) after _)
    as [more w3].
  cbn [fst] in *. rewrite !filter_app, H1, Hsame, H2, app_nil_r.
  reflexivity.
Qed.

(** X16: the classification of a cookie comes from its first row.  Let
    [(x, D)] be the first input row of cookie [x]; it is the record that
    stands for [x] in the deduplicated table, after the records [before]
    it.  In an output table every row of [x] has missing fields when the
    pass over [(x, D)], made in the world the batch has reached after
    [before], appended nothing; and it carries the two fields of the row
    that pass appended when these are text.  The domain category of a
    later duplicate plays no part. *)
Theorem output_fields_from_first_row input_df w out x D o :
  fst (analyse input_df w) = inr out ->
  first_row x input_df = Some (x, D) ->
  In o out -> out_Cookie_Name o = x ->
  exists before after rows_before wx rows,
    drop_duplicates input_df = (before ++ (x, D) :: after)%list
    /\ process_loop (List.length (drop_duplicates input_df)) 0 before w
       = (inr rows_before, wx)
    /\ fst (process_record x D wx) = inr rows
    /\ (rows = [] ->
        out_Recommended_Category o = None /\ out_Justification o = None)
    /\ (forall r more c j,
           rows = r :: more ->
           Recommended_Category r = PStr c -> Justification r = PStr j ->
           out_Recommended_Category o = Some (PStr c)
           /\ out_Justification o = Some (PStr j)).
Proof.
  intros Hout Hfirst Ho Hname.
  assert (Hne := analyse_inr_rows _ _ _ Hout).
  rewrite (analyse_output _ _ Hne) in Hout. injection Hout as <-.
  destruct (join_rows_fields _ _ _ _ Ho Hname) as [Hc Hj].
  rewrite Hc, Hj. unfold joined_fields. rewrite matching_map_filter.
  assert (Hnd := drop_duplicates_from_NoDup input_df []).
  fold (drop_duplicates input_df) in Hnd.
  assert (Hin : In (x, D) (drop_duplicates input_df)).
  { unfold drop_duplicates.
    rewrite <- (drop_duplicates_from_first input_df [] x) in Hfirst;
      [|intros []].
    apply first_row_In in Hfirst. tauto. }
  apply in_split in Hin. destruct Hin as [before [after Hsplit]].
  unfold unique_rows. rewrite Hsplit in Hnd |- *.
  rewrite (loop_rows_filter_at _ before x D after 0%nat w Hnd).
  set (total := List.length (before ++ (x, D) :: after)%list).
  exists before, after, (fst (loop_rows total 0 before w)),
         (snd (loop_rows total 0 before w)),
         (fst (record_rows x D (snd (loop_rows total 0 before w)))).
  split; [reflexivity|].
  split; [apply process_loop_rows|].
  split; [rewrite process_record_rows; reflexivity|].
  split.
  - intros ->. split; reflexivity.
  - intros r more c j -> Hrc Hrj. cbn [map result_cols fst snd].
    rewrite Hrc, Hrj. split; reflexivity.
Qed.

(** X17: when the classification fields of all rows of the batch are
    text, a row of an output table either has both fields missing or has
    both fields present as text; the fields are missing exactly when the
    batch appended no row for the cookie of that row. *)
Theorem output_missing_iff_dropped input_df w rows out o :
  fst (process_dataframe (drop_duplicates input_df) w) = inr rows ->
  fst (analyse input_df w) = inr out ->
  Forall text_fields rows ->
  In o out ->
  (out_Recommended_Category o = None
   <-> filter (named (out_Cookie_Name o)) rows = [])
  /\ (out_Recommended_Category o = None <-> out_Justification o = None)
  /\ ((out_Recommended_Category o = None /\ out_Justification o = None)
      \/ exists c j, out_Recommended_Category o = Some (PStr c)
                     /\ out_Justification o = Some (PStr j)).
Proof.
  intros Hrows Hout Htext Ho.
  rewrite process_dataframe_rows in Hrows. cbn [fst] in Hrows.
  injection Hrows as <-.
  assert (Hne := analyse_inr_rows _ _ _ Hout).
  rewrite (analyse_output _ _ Hne) in Hout. injection Hout as <-.
  destruct (join_rows_fields _ _ _ _ Ho eq_refl) as [Hc Hj].
  rewrite Hc, Hj. unfold joined_fields. rewrite matching_map_filter.
  destruct (filter (named (out_Cookie_Name o)) (fst (unique_rows input_df w)))
    as [|r more] eqn:Hfilter; cbn [map result_cols fst snd].
  - repeat split; try reflexivity. left. split; reflexivity.
  - assert (Hr : In r (fst (unique_rows input_df w))).
    { assert (H : In r (r :: more)) by (left; reflexivity).
      rewrite <- Hfilter in H. apply filter_In in H. tauto. }
    rewrite Forall_forall in Htext.
    destruct (Htext r Hr) as [c [j [Hrc Hrj]]].
    repeat split; try discriminate.
    right. exists c, j. rewrite Hrc, Hrj. split; reflexivity.
Qed.

Lemma filter_filter_implied {A : Type} (f g : A -> bool) (l : list A) :
  (forall a, f a = true -> g a = true) ->
  filter f (filter g l) = filter f l.
Proof.
  intros Himp. induction l as [|a l IH]; [reflexivity|].
  cbn [filter]. destruct (g a) eqn:Hg.
  - cbn [filter]. rewrite IH. reflexivity.
  - destruct (f a) eqn:Hf; [|exact IH].
    rewrite (Himp a Hf) in Hg. discriminate.
Qed.

Lemma filter_filter_and {A : Type} (f g : A -> bool) (l : list A) :
  filter f (filter g l) = filter (fun a => g a && f a) l.
Proof.
  induction l as [|a l IH]; [reflexivity|].
  cbn [filter]. destruct (g a); cbn [andb filter]; rewrite IH; reflexivity.
Qed.

Lemma drop_duplicates_from_first_occurrences (df : table) :
  forall seen,
    map fst (drop_duplicates_from seen df)
    = filter (fun m => negb (name_in m seen))
             (first_occurrences (map fst df)).
Proof.
  induction df as [|[n d] rest IH]; intros seen; [reflexivity|].
  cbn [drop_duplicates_from map fst first_occurrences filter].
  destruct (name_in n seen) eqn:Hseen; cbn [negb].
  - rewrite IH. symmetry. apply filter_filter_implied.
    intros m Hm. destruct (String.eqb_spec m n) as [->|]; [|reflexivity].
    rewrite Hseen in Hm. discriminate.
  - cbn [map fst]. f_equal. rewrite IH, filter_filter_and.
    apply filter_ext. intros m. unfold name_in. cbn [existsb].
    rewrite negb_orb. reflexivity.
Qed.

(** X18: the analysis enters the client once for every distinct cookie
    name of the input and never for any other name, in the order in
    which the names first occur in the input; so never more often than
    the input has rows. *)
Theorem analyse_calls_distinct_names input_df w :
  exists calls,
    calls_of (trace (snd (analyse input_df w)))
    = (calls_of (trace w) ++ calls)%list
    /\ calls = first_occurrences (map fst input_df)
    /\ NoDup calls
    /\ (forall x, In x calls <-> In x (map fst input_df))
    /\ subseq calls (map fst input_df)
    /\ (List.length calls <= List.length input_df)%nat.
Proof.
  exists (map fst (drop_duplicates input_df)).
  split; [apply analyse_calls|].
  split.
  { unfold drop_duplicates. rewrite drop_duplicates_from_first_occurrences.
    cbn [name_in existsb negb].
    clear. induction (first_occurrences (map fst input_df)) as [|a l IH];
      [reflexivity|]. cbn [filter]. rewrite IH. reflexivity. }
  split; [apply drop_duplicates_from_NoDup|].
  assert (Hsub : subseq (map fst (drop_duplicates input_df)) (map fst input_df)).
  { assert (H := drop_duplicates_from_subseq input_df []).
    fold (drop_duplicates input_df) in H.
    induction H; cbn; constructor; assumption. }
  split.
  - intros x. unfold drop_duplicates. rewrite drop_duplicates_from_names.
    cbn. tauto.
  - split; [exact Hsub|].
    apply subseq_length in Hsub. rewrite !length_map in Hsub.
    rewrite length_map. exact Hsub.
Qed.

Lemma merge_row_length right row :
  (1 <= List.length (merge_row right row))%nat
  /\ (List.length (merge_row right row) = 1%nat
      <-> (List.length (matching (fst row) right) <= 1)%nat).
Proof.
  unfold merge_row.
  destruct (matching (fst row) right) as [|m [|m' ms]]; cbn; split; lia.
Qed.

(** X19: the left merge never loses an input row, and it keeps the
    number of rows exactly when no input row has two result rows with
    its cookie name; a second result row for a name would make the
    output longer than the input. *)
Theorem merge_left_row_count (left : table) right :
  (List.length left <= List.length (merge_left left right))%nat
  /\ (List.length (merge_left left right) = List.length left
      <-> forall row, In row left ->
                      (List.length (matching (fst row) right) <= 1)%nat).
Proof.
  unfold merge_left. induction left as [|row left [IHle IHiff]].
  - cbn. split; [lia|]. split; [intros _ row []|reflexivity].
  - cbn [flat_map]. rewrite length_app. cbn [List.length].
    destruct (merge_row_length right row) as [Hone Hiff].
    split; [lia|]. split.
    + intros Hlen row' [<-|Hin].
      * apply Hiff. lia.
      * apply IHiff; [lia|exact Hin].
    + intros Hall.
      assert (H1 : List.length (merge_row right row) = 1%nat)
        by (apply Hiff, Hall; left; reflexivity).
      assert (H2 : List.length (flat_map (merge_row right) left)
                   = List.length left)
        by (apply IHiff; intros row' Hin; apply Hall; right; exact Hin).
      lia.
Qed.

(** *** The API key *)

(** X20: a key typed in the sidebar always wins.  With an empty field
    the value found in the secrets is used when the lookup succeeds, and
    the literal when the lookup raises.  The run is refused for lack of
    a key (line 205) exactly when the field is empty and the lookup
    succeeded with a falsy value; with a non-empty literal it is never
    refused after a failed lookup. *)
Theorem key_missing_iff literal_key secret user :
  literal_key <> "" ->
  (key_missing literal_key secret user = true
   <-> user = "" /\ exists v, secret = Some v /\ truthy v = false)
  /\ (user <> "" -> GEMINI_API_KEY literal_key secret user = PStr user)
  /\ (forall v, user = "" -> secret = Some v ->
                GEMINI_API_KEY literal_key secret user = v)
  /\ (user = "" -> secret = None ->
      GEMINI_API_KEY literal_key secret user = PStr literal_key).
Proof.
  intros Hlit. unfold key_missing, GEMINI_API_KEY, FALLBACK_API_KEY.
  cbn [truthy].
  destruct (String.eqb_spec user "") as [->|Huser]; cbn [negb].
  - split; [|split; [congruence|split]].
    + destruct secret as [v|].
      * split.
        -- intros H. split; [reflexivity|]. exists v.
           split; [reflexivity|]. destruct (truthy v); [discriminate|reflexivity].
        -- intros [_ [v' [Hv Hf]]]. injection Hv as <-. rewrite Hf. reflexivity.
      * cbn [truthy]. destruct (String.eqb_spec literal_key ""); [contradiction|].
        cbn. split; [discriminate|]. intros [_ [v [Hv _]]]. discriminate.
    + intros v _ ->. reflexivity.
    + intros _ ->. reflexivity.
  - split; [|split; [reflexivity|split; intros; contradiction]].
    cbn [truthy]. destruct (String.eqb_spec user ""); [contradiction|].
    cbn. split; [discriminate|]. intros [H _]. contradiction.
Qed.

(** *** The shape of a usable body *)

Lemma py_getitem_str_inr v key x :
  py_getitem_str v key = inr x ->
  exists d, v = PDict d /\ dict_lookup key d = Some x.
Proof.
  destruct v; cbn; try discriminate.
  destruct (dict_lookup key items) as [y|] eqn:Hlook; [|discriminate].
  intros H. injection H as <-. eauto.
Qed.

Lemma py_getitem_0_inr v x :
  py_getitem_0 v = inr x ->
  (exists l, v = PList (x :: l)) \/ (exists s, x = PStr s).
Proof.
  destruct v; cbn; try discriminate.
  - destruct s; [discriminate|]. intros H. injection H as <-. eauto.
  - destruct l; [discriminate|]. intros H. injection H as <-. eauto.
Qed.

Lemma py_getitem_str_inl v key e :
  py_getitem_str v key = inl e ->
  exists m, e = KeyError m \/ e = IndexError m \/ e = TypeError m.
Proof.
  destruct v; cbn; try (intros H; injection H as <-; eauto).
  destruct (dict_lookup key items); [discriminate|].
  intros H; injection H as <-; eauto.
Qed.

Lemma py_getitem_0_inl v e :
  py_getitem_0 v = inl e ->
  exists m, e = KeyError m \/ e = IndexError m \/ e = TypeError m.
Proof.
  destruct v; cbn; try (intros H; injection H as <-; eauto).
  - destruct s; [|discriminate]. intros H; injection H as <-; eauto.
  - destruct l; [|discriminate]. intros H; injection H as <-; eauto.
Qed.

(** X21: the payload text is found exactly in bodies of the shape
    [{"candidates": [{"content": {"parts": [{"text": t, ..}, ..], ..},
    ..}, ..], ..}]; on any other body the path raises, and what it raises
    is a [KeyError], an [IndexError] or a [TypeError]. *)
Theorem candidate_text_shape response_data :
  (forall t,
      candidate_text response_data = inr t
      <-> exists items c0 more content p0 more',
          response_data = PDict items
          /\ dict_lookup "candidates" items = Some (PList (PDict c0 :: more))
          /\ dict_lookup "content" c0 = Some (PDict content)
          /\ dict_lookup "parts" content = Some (PList (PDict p0 :: more'))
          /\ dict_lookup "text" p0 = Some t)
  /\ (forall e,
         candidate_text response_data = inl e ->
         exists m, e = KeyError m \/ e = IndexError m \/ e = TypeError m).
Proof.
  split.
  - intros t. split.
    + unfold candidate_text, bindE.
      destruct (py_getitem_str response_data "candidates") as [e|c] eqn:H1;
        [discriminate|].
      destruct (py_getitem_0 c) as [e|c0] eqn:H2; [discriminate|].
      destruct (py_getitem_str c0 "content") as [e|content] eqn:H3;
        [discriminate|].
      destruct (py_getitem_str content "parts") as [e|parts] eqn:H4;
        [discriminate|].
      destruct (py_getitem_0 parts) as [e|p0] eqn:H5; [discriminate|].
      intros H6.
      apply py_getitem_str_inr in H1, H3, H4, H6.
      destruct H1 as [items [-> H1]]. destruct H3 as [d0 [-> H3]].
      destruct H4 as [d1 [-> H4]]. destruct H6 as [d2 [-> H6]].
      apply py_getitem_0_inr in H2, H5.
      destruct H2 as [[more ->]|[s Hs]]; [|discriminate].
      destruct H5 as [[more' ->]|[s Hs]]; [|discriminate].
      exists items, d0, more, d1, d2, more'. repeat split; assumption.
    + intros [items [c0 [more [content [p0 [more' [-> [H1 [H2 [H3 H4]]]]]]]]]].
      unfold candidate_text, bindE, py_getitem_str, py_getitem_0.
      rewrite H1, H2, H3, H4. reflexivity.
  - intros e. unfold candidate_text, bindE.
    destruct (py_getitem_str response_data "candidates") as [e1|c] eqn:H1.
    { intros H. injection H as <-. apply (py_getitem_str_inl _ _ _ H1). }
    destruct (py_getitem_0 c) as [e2|c0] eqn:H2.
    { intros H. injection H as <-. apply (py_getitem_0_inl _ _ H2). }
    destruct (py_getitem_str c0 "content") as [e3|content] eqn:H3.
    { intros H. injection H as <-. apply (py_getitem_str_inl _ _ _ H3). }
    destruct (py_getitem_str content "parts") as [e4|parts] eqn:H4.
    { intros H. injection H as <-. apply (py_getitem_str_inl _ _ _ H4). }
    destruct (py_getitem_0 parts) as [e5|p0] eqn:H5.
    { intros H. injection H as <-. apply (py_getitem_0_inl _ _ H5). }
    apply py_getitem_str_inl.
Qed.

(** X22: an answer that is a dict never makes the reconciliation raise,
    whatever its entries hold (numbers, lists, nested dicts, nothing at
    all): an empty dict gives no row and any other dict exactly one row,
    for the record's cookie name and domain category. *)
Theorem reconcile_dict_never_raises cookie_name D items :
  (items = [] /\ reconcile cookie_name D (PDict items) = inr [])
  \/ (items <> []
      /\ exists c j, reconcile cookie_name D (PDict items)
                     = inr [mkResult cookie_name D c j]).
Proof.
  destruct items as [|item items].
  - left. split; reflexivity.
  - right. split; [discriminate|].
    unfold reconcile. cbn [truthy py_get bindE]. eauto.
Qed.


End Analyzer.

(** ** The statements at concrete inputs *)

Lemma reconcile_rule_table_witness :
  reconcile str_sample "sid" "Essential" result_targeting
  = inr [mkResult "sid" "Essential" (PStr "Essential/Targeting")
           (PStr "Depending on the website's use case it can be classified as Essential/Targeting. Tracks visitors.")].
Proof.
  destruct (reconcile_rule_table str_sample "sid" "Essential"
              [("cookieName", PStr "sid");
               ("recommendedCategory", PStr "Targeting");
               ("justification", PStr "Tracks visitors.")]
              "Targeting" "Tracks visitors." eq_refl eq_refl)
    as [fc [fj [Hrow [_ [_ [_ [_ Hboth]]]]]]].
  destruct Hboth as [Hc Hj]; try discriminate.
  unfold result_targeting. rewrite Hrow, Hc, Hj. reflexivity.
Defined.

Lemma no_candidates_record_dropped_witness :
  let net := net_script [RequestFailed (Some 429); Responded (PDict [])] in
  fst (get_cookie_details loads_sample net "sid" 5 (emit (EvSleep 1) init_world))
  = inr PNone
  /\ fst (process_record loads_sample str_sample net sliders_default
            "sid" "Essential" init_world) = inr [].
Proof.
  intros net.
  assert (Hfail : fails_next net "sid" init_world 1).
  { intros i Hi. destruct i; [reflexivity|lia]. }
  assert (Hnone : no_candidates (PDict [])).
  { exists []. split; [reflexivity|]. intros c Hc. discriminate. }
  assert (Hretries : (1 < Z.to_nat (MAX_RETRIES sliders_default))%nat)
    by (cbn; lia).
  pose proof (no_candidates_record_dropped loads_sample str_sample net
                sliders_default [] "sid" "Essential" [] init_world []
                init_world 1 (PDict []) eq_refl Hretries Hfail eq_refl Hnone)
    as [Hcall [Hrecord _]].
  split; [exact Hcall|exact Hrecord].
Defined.

Lemma get_cookie_details_exhausted_witness :
  fst (get_cookie_details loads_sample (net_failing (Some 503)) "sid" 5
         init_world)
  = inr (PDict [("cookieName", PStr "sid");
                ("recommendedCategory", PStr "Error");
                ("justification", PStr "API call failed after 5 attempts.")]).
Proof.
  rewrite (get_cookie_details_exhausted loads_sample (net_failing (Some 503))
             "sid" 5 init_world).
  - reflexivity.
  - intros i Hi. reflexivity.
Defined.

Lemma get_cookie_details_backoff_witness :
  let net := net_script [RequestFailed (Some 503); RequestFailed (Some 429);
                         RequestFailed None] in
  exists tail,
    trace (snd (get_cookie_details loads_sample net "sid" 3 init_world))
    = ([EvCall "sid"; EvPost "sid"; EvSleep 1; EvPost "sid"; EvSleep 60;
        EvPost "sid"] ++ tail)%list.
Proof.
  intros net.
  assert (Hfail : fails_next net "sid" init_world 1).
  { intros i Hi. destruct i; [reflexivity|lia]. }
  assert (Ha : (1 < Z.to_nat 3)%nat) by (cbn; lia).
  destruct (get_cookie_details_backoff loads_sample net "sid" 3 init_world 1
              (Some 429) Ha Hfail eq_refl)
    as [tail [Htrace [Hnext _]]].
  destruct Hnext as [tail' ->]; [cbn; lia|].
  exists tail'. rewrite Htrace. reflexivity.
Defined.

Lemma duplicates_one_call_same_fields_witness :
  let input_df := [("x", "A"); ("y", "B"); ("x", "C")] in
  exists calls,
    calls_of (trace (snd (analyse loads_sample str_sample (net_failing None)
                            sliders_default input_df init_world)))
    = calls
    /\ count_occ string_dec calls "x" = 1%nat.
Proof.
  intros input_df.
  assert (Hk : (1 < 2)%nat) by lia.
  destruct (duplicates_one_call_same_fields loads_sample str_sample
              (net_failing None) sliders_default input_df "x" 2 init_world
              eq_refl Hk)
    as [[calls [Hcalls Hone]] _].
  exists calls. split; [exact Hcalls|exact Hone].
Defined.

Lemma processing_error_does_not_abort_witness :
  let net := net_script [Responded (PDict []); Responded body_without_content] in
  exists rows2,
    fst (process_dataframe loads_sample str_sample net sliders_default
           [("a", "Essential"); ("b", "Unknown"); ("c", "X")] init_world)
    = inr (mkResult "b" "Unknown" (PStr "Processing Error") (PStr "'content'")
             :: rows2).
Proof.
  intros net.
  destruct (processing_error_does_not_abort loads_sample str_sample net
              sliders_default [("a", "Essential")] "b" "Unknown" [("c", "X")]
              init_world []
              (mkWorld 1 [EvSleep 1; EvCall "a"; EvPost "a"])
              (KeyError "'content'")
              (mkWorld 2 [EvSleep 1; EvCall "a"; EvPost "a";
                          EvSleep 1; EvCall "b"; EvPost "b"])
              eq_refl eq_refl)
    as [rows2 [w' [_ [Hrun _]]]].
  exists rows2. cbn [app] in Hrun. rewrite Hrun. reflexivity.
Defined.

Lemma reconcile_determined_by_inputs_witness :
  exists final_category final_justification,
    reconcile str_sample "sid" "Essential" result_targeting
    = inr [mkResult "sid" "Essential" final_category final_justification]
    /\ reconcile str_sample "sid" "Essential"
         (PDict [("justification", PStr "Tracks visitors.");
                 ("recommendedCategory", PStr "Targeting")])
       = inr [mkResult "sid" "Essential" final_category final_justification].
Proof.
  destruct (reconcile_determined_by_inputs str_sample "sid" "Essential"
              result_targeting
              (PDict [("justification", PStr "Tracks visitors.");
                      ("recommendedCategory", PStr "Targeting")])
              (PStr "Targeting") (PStr "Tracks visitors.")
              (PStr "Tracks visitors.")
              eq_refl eq_refl eq_refl eq_refl eq_refl eq_refl)
    as [c [j1 [j2 [H1 [H2 [Hsame _]]]]]].
  exists c, j1. split; [exact H1|].
  rewrite (Hsame eq_refl). exact H2.
Defined.

Lemma exhausted_retries_reconciled_witness :
  exists out,
    fst (analyse loads_sample str_sample (net_failing (Some 500))
           sliders_default [("sid", "Essential"); ("sid", "Unknown")]
           init_world) = inr out
    /\ forall o, In o out -> out_Cookie_Name o = "sid" ->
                 out_Recommended_Category o = Some (PStr "Essential/Error").
Proof.
  destruct (exhausted_retries_reconciled loads_sample str_sample
              (net_failing (Some 500)) sliders_default
              [("sid", "Essential"); ("sid", "Unknown")] "sid" "Essential"
              init_world eq_refl)
    as [results [out [_ [_ [Hout [_ Hfields]]]]]].
  - discriminate.
  - discriminate.
  - intros k. reflexivity.
  - exists out. split; [exact Hout|].
    intros o Ho Hname. apply (Hfields o Ho Hname).
Defined.

Lemma malformed_payload_not_retried_witness :
  let net := net_script [RequestFailed None; Responded (body_of_text "not json")] in
  fst (process_record loads_sample str_sample net sliders_default
         "sid" "Essential" init_world)
  = inr [mkResult "sid" "Essential" (PStr "Processing Error")
           (PStr "Expecting value: line 1 column 1 (char 0)")]
  /\ posts (snd (process_record loads_sample str_sample net sliders_default
                   "sid" "Essential" init_world)) = 2%nat.
Proof.
  intros net.
  assert (Hfail : fails_next net "sid" init_world 1).
  { intros i Hi. destruct i; [reflexivity|lia]. }
  assert (Hretries : (1 < Z.to_nat (MAX_RETRIES sliders_default))%nat)
    by (cbn; lia).
  destruct (malformed_payload_not_retried loads_sample str_sample net
              sliders_default "sid" "Essential" init_world 1
              (body_of_text "not json")
              (PList [PDict [("content",
                              PDict [("parts",
                                      PList [PDict [("text", PStr "not json")]])])]])
              (ValueError "Expecting value: line 1 column 1 (char 0)")
              Hretries Hfail eq_refl eq_refl eq_refl)
    as [_ [Hrow Hposts]].
  - right. exists (PStr "not json"). split; reflexivity.
  - split; [exact Hrow|exact Hposts].
Defined.

(** C8 as worded fails: the same recommended category and the same domain
    category, with different justifications, give different rows. *)
Lemma reconcile_same_categories_differ :
  let a1 := PDict [("recommendedCategory", PStr "Performance");
                   ("justification", PStr "Measures page load.")] in
  let a2 := PDict [("recommendedCategory", PStr "Performance");
                   ("justification", PStr "Counts visits.")] in
  py_get a1 "recommendedCategory" (PStr "Unknown")
  = py_get a2 "recommendedCategory" (PStr "Unknown")
  /\ reconcile str_sample "sid" "Unknown" a1
     <> reconcile str_sample "sid" "Unknown" a2.
Proof.
  cbv zeta. split; [reflexivity|].
  intros H. vm_compute in H. discriminate.
Qed.

(** C5 fails on this input: one cookie whose answer has no candidates.
    The batch appends nothing, selecting the result columns raises
    [KeyError], and no output table is made for the one-row input. *)
Theorem analyse_all_dropped_no_output :
  analyse loads_sample str_sample (net_replying (PDict [])) sliders_default
          [("sid", "Essential")] init_world
  = (inl (KeyError result_columns_msg),
     mkWorld 1 [EvSleep 1; EvCall "sid"; EvPost "sid"]).
Proof. reflexivity. Qed.

(** ** The further statements at concrete inputs *)

Lemma get_cookie_details_total_backoff_witness :
  total_sleep (trace (snd (get_cookie_details loads_sample
                             (net_failing (Some 503)) "sid" 3 init_world)))
  = 7.
Proof.
  destruct (get_cookie_details_total_backoff loads_sample
              (net_failing (Some 503)) "sid" 3 init_world) as [Hexp _].
  - intros i Hi. reflexivity.
  - rewrite Hexp; [reflexivity|]. intros i Hi. reflexivity.
Defined.

Lemma parsed_payload_is_reconciled_witness :
  let net := net_script [RequestFailed (Some 500); Responded (body_of_text "[1]")] in
  fst (get_cookie_details loads_small net "sid" 5 init_world)
  = inr (PList [PInt 1])
  /\ fst (process_record loads_small str_sample net sliders_default
            "sid" "Essential" init_world)
     = inr [mkResult "sid" "Essential" (PStr "Processing Error")
              (PStr "'list' object has no attribute 'get'")].
Proof.
  intros net.
  assert (Hfail : fails_next net "sid" init_world 1).
  { intros i Hi. destruct i; [reflexivity|lia]. }
  assert (Hretries : (1 < Z.to_nat (MAX_RETRIES sliders_default))%nat)
    by (cbn; lia).
  destruct (parsed_payload_is_reconciled loads_small str_sample net
              sliders_default "sid" "Essential" init_world 1
              (body_of_text "[1]")
              (PList [PDict [("content",
                              PDict [("parts",
                                      PList [PDict [("text", PStr "[1]")]])])]])
              "[1]" (PList [PInt 1])
              Hretries Hfail eq_refl eq_refl eq_refl eq_refl eq_refl)
    as [Hcall [_ Hrow]].
  split; [exact Hcall|exact Hrow].
Defined.

Lemma other_exception_not_retried_witness :
  let net := net_script [RequestFailed None;
                         Raised (TypeError "Object of type set is not JSON serializable")] in
  fst (process_record loads_sample str_sample net sliders_default
         "sid" "Essential" init_world)
  = inr [mkResult "sid" "Essential" (PStr "Processing Error")
           (PStr "Object of type set is not JSON serializable")]
  /\ posts (snd (process_record loads_sample str_sample net sliders_default
                   "sid" "Essential" init_world)) = 2%nat.
Proof.
  intros net.
  assert (Hfail : fails_next net "sid" init_world 1).
  { intros i Hi. destruct i; [reflexivity|lia]. }
  assert (Hretries : (1 < Z.to_nat (MAX_RETRIES sliders_default))%nat)
    by (cbn; lia).
  destruct (other_exception_not_retried loads_sample str_sample net
              sliders_default "sid" "Essential" init_world 1
              (TypeError "Object of type set is not JSON serializable")
              Hretries Hfail eq_refl)
    as [_ [Hrow Hposts]].
  split; [exact Hrow|exact Hposts].
Defined.

Lemma process_dataframe_pacing_witness :
  total_sleep (trace (snd (process_dataframe loads_sample str_sample
                             (net_replying (PDict [])) sliders_default
                             six_cookies init_world)))
  = 16.
Proof.
  destruct (process_dataframe_pacing loads_sample str_sample
              (net_replying (PDict [])) sliders_default six_cookies init_world)
    as [backoff [_ [Hsleep Hzero]]].
  - discriminate.
  - rewrite Hsleep, Hzero; [reflexivity|]. intros k n. reflexivity.
Defined.

Lemma final_unknown_only_if_both_witness :
  let api_details := PDict [("recommendedCategory", PStr "Unknown");
                            ("justification", PStr "Not a known cookie.")] in
  let r := mkResult "sid" "Unknown" (PStr "Unknown")
                    (PStr "Need confirmation from Client") in
  reconcile str_sample "sid" "Unknown" api_details = inr [r]
  /\ py_get api_details "recommendedCategory" (PStr "Unknown")
     = inr (PStr "Unknown")
  /\ Justification r = PStr "Need confirmation from Client".
Proof.
  intros api_details r.
  destruct (final_unknown_only_if_both str_sample "sid" "Unknown"
              api_details [r] r eq_refl (or_introl eq_refl) eq_refl)
    as [_ [Hget Hjust]].
  split; [reflexivity|]. split; [exact Hget|exact Hjust].
Defined.

Lemma missing_category_keeps_domain_witness :
  reconcile str_sample "sid" "Essential"
            (PDict [("justification", PStr "Keeps the session.")])
  = inr [mkResult "sid" "Essential" (PStr "Essential") (PStr "N/A")].
Proof.
  apply (missing_category_keeps_domain str_sample "sid" "Essential"
           [("justification", PStr "Keeps the session.")]).
  - discriminate.
  - reflexivity.
Defined.

Lemma payload_shape_decides_witness :
  fst (process_record loads_small str_sample
         (net_replying (body_of_text "0")) sliders_default
         "sid" "Essential" init_world) = inr [].
Proof.
  assert (Hfail : fails_next (net_replying (body_of_text "0")) "sid"
                             init_world 0).
  { intros i Hi. lia. }
  assert (Hretries : (0 < Z.to_nat (MAX_RETRIES sliders_default))%nat)
    by (cbn; lia).
  destruct (payload_shape_decides loads_small str_sample
              (net_replying (body_of_text "0")) sliders_default
              "sid" "Essential" init_world 0 (body_of_text "0") (PInt 0)
              Hretries Hfail eq_refl eq_refl) as [Hfalsy _].
  apply Hfalsy. reflexivity.
Defined.

Lemma output_fields_from_first_row_witness :
  let input_df := [("tid", "Targeting"); ("sid", "Essential");
                   ("sid", "Unknown")] in
  let net := net_failing (Some 500) in
  let run := analyse loads_sample str_sample net sliders_default input_df
                     init_world in
  let o := nth 2 (table_of run) (mkOutput "" "" None None) in
  out_Domain_Category o = "Unknown"
  /\ out_Recommended_Category o = Some (PStr "Essential/Error")
  /\ exists before after rows_before wx rows,
      drop_duplicates input_df = (before ++ ("sid", "Essential") :: after)%list
      /\ process_loop loads_sample str_sample net sliders_default 2 0 before
           init_world = (inr rows_before, wx)
      /\ fst (process_record loads_sample str_sample net sliders_default
                "sid" "Essential" wx) = inr rows.
Proof.
  intros input_df net run o.
  destruct (output_fields_from_first_row loads_sample str_sample net
              sliders_default input_df init_world (table_of run)
              "sid" "Essential" o eq_refl eq_refl
              (or_intror (or_intror (or_introl eq_refl))) eq_refl)
    as [before [after [rows_before [wx [rows [Hsplit [Hloop [Hrec _]]]]]]]].
  split; [reflexivity|]. split; [reflexivity|].
  exists before, after, rows_before, wx, rows.
  split; [exact Hsplit|]. split; [exact Hloop|exact Hrec].
Defined.

Lemma output_missing_iff_dropped_witness :
  let net := net_script [Responded (PDict [])] in
  let input_df := [("a", "Essential"); ("b", "Targeting")] in
  let rows := table_of (process_dataframe loads_sample str_sample net
                          sliders_default (drop_duplicates input_df)
                          init_world) in
  let run := analyse loads_sample str_sample net sliders_default input_df
                     init_world in
  let o := nth 0 (table_of run) (mkOutput "" "" None None) in
  out_Cookie_Name o = "a"
  /\ out_Recommended_Category o = None
  /\ filter (named "a") rows = [].
Proof.
  intros net input_df rows run o.
  assert (Htext : Forall text_fields rows).
  { repeat constructor. do 2 eexists. split; reflexivity. }
  destruct (output_missing_iff_dropped loads_sample str_sample net
              sliders_default input_df init_world rows (table_of run) o
              eq_refl eq_refl Htext (or_introl eq_refl)) as [[Hto _] _].
  split; [reflexivity|]. split; [reflexivity|].
  apply Hto. reflexivity.
Defined.

Lemma key_missing_iff_witness :
  GEMINI_API_KEY "literal" None "" = PStr "literal"
  /\ GEMINI_API_KEY "literal" (Some (PStr "stored")) "" = PStr "stored"
  /\ GEMINI_API_KEY "literal" (Some (PStr "")) "typed" = PStr "typed".
Proof.
  assert (Hlit : "literal" <> "") by discriminate.
  split; [|split].
  - destruct (key_missing_iff "literal" None "" Hlit) as [_ [_ [_ Hnone]]].
    apply Hnone; reflexivity.
  - destruct (key_missing_iff "literal" (Some (PStr "stored")) "" Hlit)
      as [_ [_ [Hsecret _]]].
    apply Hsecret; reflexivity.
  - destruct (key_missing_iff "literal" (Some (PStr "")) "typed" Hlit)
      as [_ [Huser _]].
    apply Huser. discriminate.
Defined.

(** C6 fails on this input: the cookie name "x" on two rows, the answer
    to its one request having no candidates.  The client is entered
    once for "x", as the claim says, but the batch appends nothing,
    selecting the result columns raises [KeyError], and there are no
    output rows for "x" at all, where the claim has two with the same
    fields. *)
Theorem analyse_duplicates_dropped_no_output :
  analyse loads_sample str_sample (net_replying (PDict [])) sliders_default
          [("x", "A"); ("x", "B")] init_world
  = (inl (KeyError result_columns_msg),
     mkWorld 1 [EvSleep 1; EvCall "x"; EvPost "x"]).
Proof. reflexivity. Qed.
